(** * Self-atari classification (tactics/selfatari.c)

    A shallow embedding of the self-atari classifier of the Go engine:
    [is_bad_selfatari_slow] with its five analyzers and
    [selfatari_cousin], followed by the properties of the classifier.

    C [int]s, coordinates and group ids are [Z]; the [bool]/[int]
    verdicts returned by the analyzers are kept as the C integers
    [1] (true, "bad"), [0] (false, "not bad") and [-1] (inconclusive).
    [assert] is active in the source (no NDEBUG), so a failing assertion
    is a result of its own. *)

From Stdlib Require Import ZArith List Bool Lia Permutation.
From Stdlib Require String Ascii.
Import ListNotations.
Local Open Scope Z_scope.

(** ** Colours, coordinates, groups *)

(** enum stone; [S_MAX] is the number of its values. *)
Inductive stone : Type := S_NONE | S_BLACK | S_WHITE | S_OFFBOARD.

Definition stone_eqb (a b : stone) : bool :=
  match a, b with
  | S_NONE, S_NONE | S_BLACK, S_BLACK
  | S_WHITE, S_WHITE | S_OFFBOARD, S_OFFBOARD => true
  | _, _ => false
  end.

(** Modelled from the spec: [stone_other] is declared in board.h; the two
    real colours are swapped, the pseudo-colours are left alone. *)
Definition stone_other (s : stone) : stone :=
  match s with
  | S_BLACK => S_WHITE
  | S_WHITE => S_BLACK
  | other => other
  end.

Definition is_stone (s : stone) : bool :=
  match s with
  | S_BLACK | S_WHITE => true
  | _ => false
  end.

Definition coord_t := Z.
Definition group_t := Z.

(** Modelled from the spec: [pass] ("no suggestion") is a coordinate that is
    no board point; board.h is not part of the sources at hand. *)
Definition pass : coord_t := -1.

Definition b2z (b : bool) : Z := if b then 1 else 0.

(** ** Results: a value, a failed [assert], or undefined behaviour *)

Inductive fault : Type :=
| AssertFail   (* an assert() of the source does not hold: abort *)
| Undefined.   (* out-of-bounds write or read of an unset local *)

Inductive result (A : Type) : Type :=
| Ok (a : A)
| Fault (f : fault).
Arguments Ok {A} a.
Arguments Fault {A} f.

Definition bind {A B} (r : result A) (k : A -> result B) : result B :=
  match r with
  | Ok a => k a
  | Fault f => Fault f
  end.

Notation "x <- r ;; k" := (bind r (fun x => k))
  (at level 100, r at next level, right associativity).

Definition assert (c : bool) : result unit :=
  if c then Ok tt else Fault AssertFail.

(** Loop control of the enemy scan: the body returns from the function with
    [Return d] or goes on to the next iteration with the updated local. *)
Inductive flow (A : Type) : Type :=
| Return (d : Z)
| Next (a : A).
Arguments Return {A} d.
Arguments Next {A} a.

(** ** The board query interface

    board.h is not among the sources: the classifier is written against
    these queries, which are taken as a record of functions.  [neighbors]
    is the visiting order of [foreach_neighbor]; [libs] and [lib] are
    [board_group_info(b, g).libs] and [.lib[i]]. *)
Record board : Type := {
  board_at : coord_t -> stone;
  group_at : coord_t -> group_t;
  libs : group_t -> Z;
  lib : group_t -> nat -> coord_t;
  board_group_other_lib : group_t -> coord_t -> coord_t;
  neighbors : coord_t -> list coord_t;
  coord_is_adjecent : coord_t -> coord_t -> bool;
  immediate_liberty_count : coord_t -> Z;
  neighbor_count_at : coord_t -> stone -> Z;
  group_is_onestone : group_t -> bool;
  board_is_one_point_eye : coord_t -> stone -> bool;
  board_is_false_eyelike : coord_t -> stone -> bool
}.

(** ** struct selfatari_state

    [groupids c] is the bucket [groupids[c][0 .. groupcts[c])] in insertion
    order; [groupcts] is its length.  A board point has four neighbours, so
    the four slots of a bucket are never exceeded. *)
Record selfatari_state : Type := {
  groupids : stone -> list group_t;
  friend_has_no_libs : bool;
  needs_more_lib : group_t;
  needs_more_lib_except : coord_t
}.

Definition groupcts (s : selfatari_state) (c : stone) : Z :=
  Z.of_nat (length (groupids s c)).

(** memset(&s, 0, sizeof(s)) *)
Definition state0 : selfatari_state :=
  {| groupids := fun _ => [];
     friend_has_no_libs := false;
     needs_more_lib := 0;
     needs_more_lib_except := 0 |}.

Definition push_group (s : selfatari_state) (c : stone) (g : group_t)
  : selfatari_state :=
  {| groupids := fun c' => if stone_eqb c' c then groupids s c ++ [g]
                           else groupids s c';
     friend_has_no_libs := friend_has_no_libs s;
     needs_more_lib := needs_more_lib s;
     needs_more_lib_except := needs_more_lib_except s |}.

Definition set_friend_has_no_libs (s : selfatari_state) (v : bool)
  : selfatari_state :=
  {| groupids := groupids s;
     friend_has_no_libs := v;
     needs_more_lib := needs_more_lib s;
     needs_more_lib_except := needs_more_lib_except s |}.

Definition set_needs_more_lib (s : selfatari_state) (g : group_t)
  (lib2 : coord_t) : selfatari_state :=
  {| groupids := groupids s;
     friend_has_no_libs := false;
     needs_more_lib := g;
     needs_more_lib_except := lib2 |}.

(** ** three_liberty_suicide *)

(** The loop extracting the other two liberties: [acc] is
    [other_libs[0..j)] paired with [other_libs_adj[0..j)].  A third liberty
    different from [to] is written past the end of the arrays. *)
Fixpoint other_libs_from (b : board) (g : group_t) (to : coord_t)
  (idx : list nat) (acc : list (coord_t * bool))
  : result (list (coord_t * bool)) :=
  match idx with
  | [] => Ok acc
  | i :: idx' =>
      let l := lib b g i in
      if l =? to then other_libs_from b g to idx' acc
      else if (length acc <? 2)%nat
           then other_libs_from b g to idx'
                  (acc ++ [(l, coord_is_adjecent b l to)])
           else Fault Undefined
  end.

(** The two arrays after the loop: the written slots [other_libs[0..j)]
    with [other_libs_adj[0..j)], in order.  The slots from [j] on are left
    unset. *)
Definition other_libs (b : board) (g : group_t) (to : coord_t)
  : result (list (coord_t * bool)) :=
  other_libs_from b g to [0%nat; 1%nat; 2%nat] [].

(** Reading [other_libs[i]] and [other_libs_adj[i]]: the value of a slot
    the loop has not written is undefined. *)
Definition other_lib (ol : list (coord_t * bool)) (i : nat)
  : result coord_t :=
  match nth_error ol i with
  | Some e => Ok (fst e)
  | None => Fault Undefined
  end.

Definition other_lib_adj (ol : list (coord_t * bool)) (i : nat)
  : result bool :=
  match nth_error ol i with
  | Some e => Ok (snd e)
  | None => Fault Undefined
  end.

(** Body of the [foreach_neighbor] of the final test: neighbour [c] of the
    liberty is a friendly stone of another group that has more than one
    liberty. *)
Definition can_connect (b : board) (g : group_t) (color : stone)
  (c : coord_t) : bool :=
  stone_eqb (board_at b c) color
  && negb (group_at b c =? g)
  && (libs b (group_at b c) >? 1).

(** One round [i] of the final test: [li] is [other_libs[i]], [lo] is
    [other_libs[1 - i]], [adj_i] is [other_libs_adj[i]].  [Some v] is
    [return v], [None] is [continue]. *)
Definition final_test (b : board) (g : group_t) (color : stone)
  (other_libs_neighbors : bool) (li lo : coord_t) (adj_i : bool)
  : option bool :=
  let null_libs := b2z other_libs_neighbors + b2z adj_i in
  if board_is_one_point_eye b lo color then Some false
  else if immediate_liberty_count b li - null_libs >? 1 then None
  else if existsb (can_connect b g color) (neighbors b li) then None
  else Some true.

(** [||] and [&&] read their second operand only when the first does not
    decide. *)
Definition three_liberty_suicide (b : board) (g : group_t) (color : stone)
  (to : coord_t) (s : selfatari_state) : result bool :=
  ol <- other_libs b g to ;;
  adj0 <- other_lib_adj ol 0 ;;
  any_adj <- (if adj0 then Ok true else other_lib_adj ol 1) ;;
  if immediate_liberty_count b to - b2z any_adj >? 0 then Ok false
  else
    both_adj <- (if adj0 then other_lib_adj ol 1 else Ok false) ;;
    _ <- assert (negb both_adj) ;;
    if groupcts s color >? 1 then Ok false
    else if existsb (fun g' => libs b g' <=? 2)
                    (groupids s (stone_other color))
    then Ok false
    else
      l0 <- other_lib ol 0 ;;
      l1 <- other_lib ol 1 ;;
      adj1 <- other_lib_adj ol 1 ;;
      let other_libs_neighbors := coord_is_adjecent b l0 l1 in
      match final_test b g color other_libs_neighbors l0 l1 adj0 with
      | Some v => Ok v
      | None =>
          match final_test b g color other_libs_neighbors l1 l0 adj1 with
          | Some v => Ok v
          | None => Ok false
          end
      end.

(** ** examine_friendly_groups *)

(** The loop over [gs = groupids[color][i ..]], from state [s]; the result
    is the returned [int] and the state left behind. *)
Fixpoint examine_friendly_loop (b : board) (color : stone) (to : coord_t)
  (gs : list group_t) (s : selfatari_state)
  : result (Z * selfatari_state) :=
  match gs with
  | [] => Ok (-1, s)
  | g :: gs' =>
      if libs b g =? 1 then
        examine_friendly_loop b color to gs'
          (if needs_more_lib s =? 0 then set_friend_has_no_libs s true
           else s)
      else if libs b g >? 2 then
        if libs b g =? 3 then
          r <- three_liberty_suicide b g color to s ;;
          Ok (if r then 1 else 0, s)
        else Ok (0, s)
      else
        let lib2 := board_group_other_lib b g to in
        if negb (needs_more_lib s =? 0)
           && negb (needs_more_lib s =? g)
           && negb (needs_more_lib_except s =? lib2)
        then Ok (0, s)
        else if groupcts s S_NONE >? 1 then Ok (0, s)
        else if (groupcts s S_NONE >? 0)
                && negb (coord_is_adjecent b lib2 to)
        then Ok (0, s)
        else examine_friendly_loop b color to gs'
               (set_needs_more_lib s g lib2)
  end.

Definition examine_friendly_groups (b : board) (color : stone)
  (to : coord_t) (s : selfatari_state) : result (Z * selfatari_state) :=
  examine_friendly_loop b color to (groupids s color) s.

(** ** examine_enemy_groups *)

Definition ko_stone (b : board) (color : stone) (g : group_t) : bool :=
  neighbor_count_at b g color + neighbor_count_at b g S_OFFBOARD =? 3.

Fixpoint examine_enemy_loop (b : board) (color : stone)
  (s : selfatari_state) (gs : list group_t) (can_capture : group_t)
  : flow group_t :=
  match gs with
  | [] => Next can_capture
  | g :: gs' =>
      if libs b g >? 1 then examine_enemy_loop b color s gs' can_capture
      else if (groupcts s S_NONE >? 0) || negb (group_is_onestone b g)
      then Return 0
      else if ko_stone b color g && negb (friend_has_no_libs s)
      then Return 0
      else if negb (needs_more_lib s =? 0)
              || (negb (can_capture =? 0) && negb (can_capture =? g))
      then Return 0
      else examine_enemy_loop b color s gs' g
  end.

Definition examine_enemy_groups (b : board) (color : stone) (to : coord_t)
  (s : selfatari_state) : Z :=
  match examine_enemy_loop b color s (groupids s (stone_other color)) 0 with
  | Return d => d
  | Next can_capture =>
      if (needs_more_lib s =? 0) && (can_capture =? 0)
         && (groupcts s S_NONE =? 0)
      then 1
      else -1
  end.

(** ** setup_nakade_or_snapback *)

(** Body of the [foreach_neighbor] over the other liberty of enemy group
    [g]: [true] is [continue], [false] is [goto next_group]. *)
Definition internal_neighbor (b : board) (color : stone) (to : coord_t)
  (g : group_t) (c : coord_t) : bool :=
  if stone_eqb (board_at b c) S_OFFBOARD then true
  else if stone_eqb (board_at b c) S_NONE then c =? to
  else
    let g2 := group_at b c in
    if stone_eqb (board_at b c) color then libs b (group_at b c) =? 2
    else if (g =? g2) || (libs b g2 =? 1) then true
    else (libs b g2 =? 2)
         && ((lib b g2 0%nat =? to) || (lib b g2 1%nat =? to)).

(** The loop over the friendly groups that closes the examination of one
    enemy group: [Some d] is [return d], [None] is [goto next_group]. *)
Fixpoint nakade_friends (b : board) (to lib2 : coord_t)
  (gs : list group_t) : result (option Z) :=
  match gs with
  | [] => Ok (Some 0)
  | g2 :: gs' =>
      _ <- assert (libs b g2 <=? 2) ;;
      if libs b g2 =? 2 then
        if negb (lib b g2 0%nat =? lib2) && negb (lib b g2 1%nat =? lib2)
        then Ok None
        else nakade_friends b to lib2 gs'
      else
        _ <- assert (lib b g2 0%nat =? to) ;;
        nakade_friends b to lib2 gs'
  end.

(** The examination of one enemy group, up to the label [next_group]. *)
Definition nakade_group (b : board) (color : stone) (to : coord_t)
  (s : selfatari_state) (g : group_t) : result (option Z) :=
  if negb (libs b g =? 2) then Ok None
  else
    let lib2 := board_group_other_lib b g to in
    if negb (forallb (internal_neighbor b color to g) (neighbors b lib2))
    then Ok None
    else if groupcts s color <? 1 then Ok (Some 0)
    else if (groupcts s color =? 1)
            && group_is_onestone b (nth 0 (groupids s color) 0)
    then
      let g2 := nth 0 (groupids s color) 0 in
      _ <- assert (libs b g2 <=? 2) ;;
      if libs b g2 =? 1 then Ok (Some 0) else Ok None
    else nakade_friends b to lib2 (groupids s color).

Fixpoint nakade_loop (b : board) (color : stone) (to : coord_t)
  (s : selfatari_state) (gs : list group_t) : result Z :=
  match gs with
  | [] => Ok (-1)
  | g :: gs' =>
      r <- nakade_group b color to s g ;;
      match r with
      | Some d => Ok d
      | None =>
          if negb (groupcts s color =? 0) then Ok (-1)
          else nakade_loop b color to s gs'
      end
  end.

Definition setup_nakade_or_snapback (b : board) (color : stone)
  (to : coord_t) (s : selfatari_state) : result Z :=
  nakade_loop b color to s (groupids s (stone_other color)).

(** ** check_throwin *)

(** Body of the [foreach_neighbor] of the single-stone throw-in: the empty
    neighbour [c] is an escape path. *)
Definition escape_path (b : board) (color : stone) (c : coord_t) : bool :=
  stone_eqb (board_at b c) S_NONE
  && (neighbor_count_at b c (stone_other color)
      + neighbor_count_at b c S_OFFBOARD <? 2).

Definition throwin_applies (b : board) (color : stone) (to : coord_t)
  : bool :=
  (neighbor_count_at b to S_OFFBOARD <? 2)
  && (neighbor_count_at b to (stone_other color)
      + neighbor_count_at b to S_OFFBOARD =? 3)
  && board_is_false_eyelike b to (stone_other color).

Definition check_throwin (b : board) (color : stone) (to : coord_t)
  (s : selfatari_state) : result Z :=
  if throwin_applies b color to then
    _ <- assert (groupcts s color <=? 1) ;;
    if groupcts s color =? 0 then
      if existsb (escape_path b color) (neighbors b to) then Ok (-1)
      else Ok 0
    else
      _ <- assert (groupcts s color =? 1) ;;
      let g := nth 0 (groupids s color) 0 in
      _ <- assert (libs b g <=? 2) ;;
      if libs b g =? 1 then Ok 1
      else if group_is_onestone b g then Ok 0
      else Ok (-1)
  else Ok (-1).

(** ** is_bad_selfatari_slow *)

(** Body of the collecting [foreach_neighbor]. *)
Definition collect_neighbor (b : board) (s : selfatari_state) (c : coord_t)
  : selfatari_state :=
  let color := board_at b c in
  let group := group_at b c in
  if existsb (Z.eqb group) (groupids s color) then s
  else push_group s color group.

Definition collect_groups (b : board) (to : coord_t) : selfatari_state :=
  fold_left (collect_neighbor b) (neighbors b to) state0.

(** [return d] of an [int] from a function returning [bool]. *)
Definition int_to_bool (d : Z) : bool := negb (d =? 0).

Definition is_bad_selfatari_slow (b : board) (color : stone) (to : coord_t)
  : result bool :=
  let s := collect_groups b to in
  _ <- assert (groupcts s S_NONE <=? 1) ;;
  ds <- examine_friendly_groups b color to s ;;
  let '(d, s) := ds in
  if d >=? 0 then Ok (int_to_bool d)
  else
    let d := examine_enemy_groups b color to s in
    if d >=? 0 then Ok (int_to_bool d)
    else
      d <- setup_nakade_or_snapback b color to s ;;
      if d >=? 0 then Ok (int_to_bool d)
      else
        d <- check_throwin b color to s ;;
        if d >=? 0 then Ok (int_to_bool d)
        else Ok true.

(** ** selfatari_cousin *)

(** Modelled from the spec: [is_bad_selfatari] is declared in
    tactics/selfatari.h, which is not among the sources; the cousin
    selector classifies the other liberty with the orchestrator. *)
Definition is_bad_selfatari (b : board) (color : stone) (to : coord_t)
  : result bool :=
  is_bad_selfatari_slow b color to.

(** Body of the [foreach_neighbor] filling [groups]: the groups appended
    for neighbour [c] (none or one). *)
Definition cousin_neighbor (b : board) (color : stone) (c : coord_t)
  : list group_t :=
  if negb (stone_eqb (board_at b c) color) then []
  else if libs b (group_at b c) =? 2 then [group_at b c]
  else [].

(** [fast_random] is the engine's random number generator (random.h); the
    draw is a parameter, [fast_random n] lying in [0 .. n). *)
Definition cousin_groups (b : board) (color : stone) (coord : coord_t)
  : list group_t :=
  flat_map (cousin_neighbor b color) (neighbors b coord).

Definition selfatari_cousin (fast_random : nat -> nat) (b : board)
  (color : stone) (coord : coord_t) : result coord_t :=
  let groups := cousin_groups b color coord in
  let groups_n := length groups in
  if (groups_n =? 0)%nat then Ok pass
  else
    let group := nth (fast_random groups_n) groups 0 in
    let lib2 := board_group_other_lib b group coord in
    bad <- is_bad_selfatari b color lib2 ;;
    if bad then Ok pass else Ok lib2.

(** ** Boards from diagrams *)

(** Modelled from the spec: the board behind the query interface (board.h
    and board.c are not among the sources).  A position is drawn as rows of
    [X] (black), [O] (white) and [.] (empty) and framed by off-board points;
    a point is [x + y * size] with the frame included in [size], the top
    row of the drawing being [y = 1].  A group is a maximal connected set of
    stones of one colour, named by the least of its points; its liberties
    are the empty points next to it.  The order of the liberty array depends
    on the moves played so far: [lib_first] lists the points that come first
    in every array, the others follow by coordinate. *)
Module Diagram.

Import String Ascii.

Definition stone_of_ascii (a : ascii) : stone :=
  if Ascii.eqb a "X" then S_BLACK
  else if Ascii.eqb a "O" then S_WHITE
  else if Ascii.eqb a "." then S_NONE
  else S_OFFBOARD.

Definition row_cells (r : string) : list stone :=
  S_OFFBOARD :: map stone_of_ascii (list_ascii_of_string r) ++ [S_OFFBOARD].

Definition cell (cells : list stone) (c : coord_t) : stone :=
  if c <? 0 then S_OFFBOARD else nth (Z.to_nat c) cells S_OFFBOARD.

Definition label (labels : list Z) (c : coord_t) : Z :=
  if c <? 0 then 0 else nth (Z.to_nat c) labels 0.

Definition around (size : Z) (c : coord_t) : list coord_t :=
  [c - size; c - 1; c + 1; c + size].

Definition diagonals (size : Z) (c : coord_t) : list coord_t :=
  [c - size - 1; c - size + 1; c + size - 1; c + size + 1].

(** One round of spreading the least point of a group over the group. *)
Definition spread (size : Z) (cells : list stone) (labels : list Z)
  : list Z :=
  map (fun i =>
         let c := Z.of_nat i in
         if is_stone (cell cells c) then
           fold_left
             (fun m n => if stone_eqb (cell cells n) (cell cells c)
                         then Z.min m (label labels n) else m)
             (around size c) (label labels c)
         else 0)
      (seq 0 (List.length cells)).

Record position : Type := {
  size : Z;
  cells : list stone;
  labels : list Z
}.

Definition position_of_rows (rows : list string) : position :=
  let n := (List.length rows + 2)%nat in
  let cs := repeat S_OFFBOARD n ++ flat_map row_cells rows
            ++ repeat S_OFFBOARD n in
  let start := map (fun i => if is_stone (nth i cs S_OFFBOARD)
                             then Z.of_nat i else 0)
                   (seq 0 (List.length cs)) in
  {| size := Z.of_nat n;
     cells := cs;
     labels := Nat.iter (List.length cs) (spread (Z.of_nat n) cs) start |}.

Section Queries.

Variable p : position.
Variable lib_first : list coord_t.

Definition points : list coord_t :=
  map Z.of_nat (seq 0 (List.length (cells p))).

Definition count_around (c : coord_t) (s : stone) : Z :=
  Z.of_nat (List.length
              (filter (fun n => stone_eqb (cell (cells p) n) s)
                      (around (size p) c))).

Definition touches (g : group_t) (c : coord_t) : bool :=
  existsb (fun n => is_stone (cell (cells p) n) && (label (labels p) n =? g))
          (around (size p) c).

Fixpoint keep_first (l : list coord_t) (seen : list coord_t)
  : list coord_t :=
  match l with
  | [] => []
  | c :: l' => if existsb (Z.eqb c) seen then keep_first l' seen
               else c :: keep_first l' (c :: seen)
  end.

Definition liberties (g : group_t) : list coord_t :=
  keep_first
    (filter (fun c => stone_eqb (cell (cells p) c) S_NONE && touches g c)
            (lib_first ++ points))
    [].

Definition stones (g : group_t) : list coord_t :=
  if g =? 0 then []
  else filter (fun c => is_stone (cell (cells p) c)
                        && (label (labels p) c =? g)) points.

(** Modelled from the spec: [board_is_false_eyelike]. *)
Definition false_eyelike (c : coord_t) (eye_color : stone) : bool :=
  let ds := map (cell (cells p)) (diagonals (size p) c) in
  let spoilers :=
    List.length (filter (stone_eqb (stone_other eye_color)) ds) in
  let edge := existsb (stone_eqb S_OFFBOARD) ds in
  (2 <=? Z.of_nat spoilers + b2z edge).

(** Modelled from the spec: the queries of the board interface answered
    from a position.  The neighbours are visited up, left, right, down; two
    points are adjacent when they differ by 1 or by [size]; a point is
    false-eyelike for a colour when two of its diagonals spoil it, the edge
    counting for one; a one-point eye is a point with all neighbours of the
    colour or off-board that is not false-eyelike. *)
Definition to_board : board :=
  {| board_at := cell (cells p);
     group_at := label (labels p);
     libs := fun g => Z.of_nat (List.length (liberties g));
     lib := fun g i => nth i (liberties g) 0;
     board_group_other_lib := fun g l =>
       if negb (nth 0 (liberties g) 0 =? l) then nth 0 (liberties g) 0
       else nth 1 (liberties g) 0;
     neighbors := around (size p);
     coord_is_adjecent := fun c1 c2 =>
       (Z.abs (c1 - c2) =? 1) || (Z.abs (c1 - c2) =? size p);
     immediate_liberty_count := fun c => count_around c S_NONE;
     neighbor_count_at := count_around;
     group_is_onestone := fun g => (List.length (stones g) =? 1)%nat;
     board_is_one_point_eye := fun c eye_color =>
       (count_around c eye_color + count_around c S_OFFBOARD =? 4)
       && negb (false_eyelike c eye_color);
     board_is_false_eyelike := false_eyelike |}.

End Queries.

(** The point in column [x] and row [y] of the drawing, both from 1. *)
Definition pt (p : position) (x y : Z) : coord_t := x + y * size p.

End Diagram.

(** The same board visited in another order: [foreach_neighbor] replaced. *)
Definition with_neighbors (b : board) (nb : coord_t -> list coord_t)
  : board :=
  {| board_at := board_at b;
     group_at := group_at b;
     libs := libs b;
     lib := lib b;
     board_group_other_lib := board_group_other_lib b;
     neighbors := nb;
     coord_is_adjecent := coord_is_adjecent b;
     immediate_liberty_count := immediate_liberty_count b;
     neighbor_count_at := neighbor_count_at b;
     group_is_onestone := group_is_onestone b;
     board_is_one_point_eye := board_is_one_point_eye b;
     board_is_false_eyelike := board_is_false_eyelike b |}.

(** The same board with other liberty arrays. *)
Definition with_lib (b : board) (l : group_t -> nat -> coord_t) : board :=
  {| board_at := board_at b;
     group_at := group_at b;
     libs := libs b;
     lib := l;
     board_group_other_lib := board_group_other_lib b;
     neighbors := neighbors b;
     coord_is_adjecent := coord_is_adjecent b;
     immediate_liberty_count := immediate_liberty_count b;
     neighbor_count_at := neighbor_count_at b;
     group_is_onestone := group_is_onestone b;
     board_is_one_point_eye := board_is_one_point_eye b;
     board_is_false_eyelike := board_is_false_eyelike b |}.

(** ** Positions *)
Module Positions.
Import Diagram.
Import String.StringSyntax.
Local Open Scope string_scope.

(** A ko in the centre, and a corner point walled in by white. *)
Definition ko_pos : position := Eval vm_compute in
  position_of_rows
    [ ".O.....";
      "O......";
      ".XO....";
      "XO.O...";
      ".XO....";
      ".......";
      "......." ].
Definition ko_board : board := to_board ko_pos [].

(** Two black two-liberty groups on the lower edge around one point. *)
Definition edge_pos : position := Eval vm_compute in
  position_of_rows
    [ ".......";
      ".......";
      ".......";
      ".......";
      "OOOOO..";
      "O.OOO.O";
      "OXX.XXO" ].
Definition edge_board : board := to_board edge_pos [].

(** A black group with one eye and two outside liberties. *)
Definition ring_pos : position := Eval vm_compute in
  position_of_rows
    [ ".......";
      ".......";
      "OO.OOO.";
      "OXXXOO.";
      "OX.X.O.";
      "OXXXOO.";
      "OOOOO.." ].
(** The liberty array of the black group is (3,3), (3,5), (5,5) ... *)
Definition ring_board : board := to_board ring_pos [].
(** ... or starts with the eye (3,5). *)
Definition ring_board_eye_first : board :=
  to_board ring_pos [pt ring_pos 3 5].

(** A nakade inside the white group on the left edge, next to a white
    stone with an outside liberty. *)
Definition nakade_pos : position := Eval vm_compute in
  position_of_rows
    [ ".......";
      ".......";
      ".......";
      "OXXX...";
      ".OOX...";
      "X.OX...";
      "XXOX..." ].
Definition nakade_board : board := to_board nakade_pos [].
Definition nakade_board_rev : board :=
  with_neighbors nakade_board (fun c => rev (neighbors nakade_board c)).

(** A throw-in on the left edge with no black stone next to it. *)
Definition throwin_pos : position := Eval vm_compute in
  position_of_rows
    [ ".......";
      ".......";
      ".X.....";
      ".O.....";
      "OX.....";
      ".OX....";
      "OOX...." ].
Definition throwin_board : board := to_board throwin_pos [].

(** A false eye on the lower edge, next to a single black stone. *)
Definition false_eye_pos : position := Eval vm_compute in
  position_of_rows
    [ ".......";
      ".......";
      ".......";
      ".......";
      ".......";
      "OOOOX..";
      "O.X.O.." ].
Definition false_eye_board : board := to_board false_eye_pos [].

(** The same shape with the black stone already in atari. *)
Definition atari_pos : position := Eval vm_compute in
  position_of_rows
    [ ".......";
      ".......";
      ".......";
      ".......";
      ".......";
      ".OOOX..";
      ".OX.OX." ].
Definition atari_board : board := to_board atari_pos [].

(** The first diagram in the comment of [three_liberty_suicide]: a black
    group with the three inner liberties (3,3), (4,3) and (5,3). *)
Definition eyespace_pos : position := Eval vm_compute in
  position_of_rows
    [ "OOOOOOO";
      "OXXXXXO";
      "OX...XO";
      "OXXXXXO";
      "OOOOOOO";
      ".......";
      "......." ].
Definition eyespace_board : board := to_board eyespace_pos [].
(** The same stones with liberty arrays that hold (4,3) twice, then
    (3,3). *)
Definition eyespace_board_repeated : board :=
  with_lib eyespace_board (fun _ i => nth i [31; 31; 30] 0).

(** The diagram in the comment of [setup_nakade_or_snapback] with the
    colours swapped back: white must not play a = (3,2), because black at
    b = (3,3) would then capture two white groups. *)
Definition two_groups_pos : position := Eval vm_compute in
  position_of_rows
    [ "XXXXO..";
      "XX.XO..";
      "XO.XO..";
      "XXXXO..";
      "OOOOO..";
      ".......";
      "......." ].
Definition two_groups_board : board := to_board two_groups_pos [].

(** Three white stones in atari around one point. *)
Definition double_pos : position := Eval vm_compute in
  position_of_rows
    [ ".......";
      ".......";
      ".......";
      ".......";
      "..XOX..";
      ".XO.OX.";
      "..XOX.." ].
Definition double_board : board := to_board double_pos [].

(** Two black stones around the corner point, both with the other liberty
    (2,2). *)
Definition corner_pos : position := Eval vm_compute in
  position_of_rows
    [ ".XO....";
      "X..O...";
      "OO.....";
      ".......";
      ".......";
      ".......";
      "......." ].
Definition corner_board : board := to_board corner_pos [].

End Positions.

(** ** Situations of the scans *)

(** The friendly scan at [to] comes to examine [g] in state [s1]: the
    groups before [g] in the bucket were scanned without a verdict. *)
Definition friendly_scan_examines (b : board) (color : stone) (to : coord_t)
  (g : group_t) (s1 : selfatari_state) : Prop :=
  exists pre post,
    groupids (collect_groups b to) color = pre ++ g :: post /\
    examine_friendly_loop b color to pre (collect_groups b to)
    = Ok (-1, s1).

(** The enemy scan in state [s] comes to examine [g] with the local
    [can_capture] holding [cc]. *)
Definition enemy_scan_examines (b : board) (color : stone)
  (s : selfatari_state) (g : group_t) (cc : group_t) : Prop :=
  exists pre post,
    groupids s (stone_other color) = pre ++ g :: post /\
    examine_enemy_loop b color s pre 0 = Next cc.

(** The empty neighbours of a point, in visiting order. *)
Definition empty_neighbors (b : board) (to : coord_t) : list coord_t :=
  filter (fun c => stone_eqb (board_at b c) S_NONE) (neighbors b to).

(** An enemy group with two liberties that the nakade analysis gives up:
    its other liberty has a neighbour that is not internal, or the point
    joins a single friendly stone that is not in atari (left to
    [check_throwin]). *)
Definition disqualified (b : board) (color : stone) (to : coord_t)
  (s : selfatari_state) (g : group_t) : Prop :=
  libs b g = 2 /\
  let lib2 := board_group_other_lib b g to in
  let g2 := nth 0 (groupids s color) 0 in
  (forallb (internal_neighbor b color to g) (neighbors b lib2) = false
   \/ (forallb (internal_neighbor b color to g) (neighbors b lib2) = true
       /\ groupcts s color = 1
       /\ group_is_onestone b g2 = true
       /\ libs b g2 = 2)).

(** ** What the board keeps true around a point

    The board subsystem maintains the liberty arrays and the neighbour
    counts; the classifier relies on them.  The checks below spell out, for
    one candidate point, the part of that bookkeeping the classifier
    depends on. *)

(** The liberties recorded for [g]: [lib[0 .. libs)]. *)
Definition lib_list (b : board) (g : group_t) : list coord_t :=
  map (lib b g) (seq 0 (Z.to_nat (libs b g))).

Fixpoint distinct (l : list Z) : bool :=
  match l with
  | [] => true
  | x :: l' => negb (existsb (Z.eqb x) l') && distinct l'
  end.

(** [immediate_liberty_count] counts the empty neighbours. *)
Definition empty_count_ok (b : board) (to : coord_t) : bool :=
  immediate_liberty_count b to =? Z.of_nat (length (empty_neighbors b to)).

(** The recorded liberties of [g] are empty points, no point is recorded
    twice, and one that [coord_is_adjecent] finds next to [to] is among the
    neighbours visited from [to]. *)
Definition liberties_ok (b : board) (to : coord_t) (g : group_t) : bool :=
  forallb (fun l => stone_eqb (board_at b l) S_NONE
                    && implb (coord_is_adjecent b l to)
                             (existsb (Z.eqb l) (neighbors b to)))
          (lib_list b g)
  && distinct (lib_list b g).

(** A group of stones next to the empty point [to] has an id, and while it
    has at most three liberties they are recorded accurately, [to] among
    them. *)
Definition group_ok (b : board) (to : coord_t) (g : group_t) : bool :=
  negb (g =? 0)
  && implb (libs b g <=? 3)
           (existsb (Z.eqb to) (lib_list b g) && liberties_ok b to g).

Definition around_ok (b : board) (to : coord_t) : bool :=
  empty_count_ok b to
  && forallb (fun c => implb (is_stone (board_at b c))
                             (group_ok b to (group_at b c)))
             (neighbors b to).

(** The neighbour counts of [to] are those of its neighbours, of which
    there are at most four, and an empty neighbour carries no group. *)
Definition neighbor_counts_ok (b : board) (to : coord_t) : bool :=
  (length (neighbors b to) <=? 4)%nat
  && forallb (fun col =>
                neighbor_count_at b to col
                =? Z.of_nat (length (filter (fun c => stone_eqb (board_at b c)
                                                                col)
                                            (neighbors b to))))
             [S_NONE; S_BLACK; S_WHITE; S_OFFBOARD]
  && forallb (fun c => implb (stone_eqb (board_at b c) S_NONE)
                             (group_at b c =? 0))
             (neighbors b to).

(** The number of entries in the four buckets. *)
Definition bucket_entries (s : selfatari_state) : nat :=
  (length (groupids s S_NONE) + length (groupids s S_BLACK)
   + length (groupids s S_WHITE) + length (groupids s S_OFFBOARD))%nat.

(** ** Scans with early exit

    The loops over a bucket either leave the function on some group or
    carry a few locals to the next group.  [scan] is such a loop, [None]
    standing for the early exit. *)
Fixpoint scan {A X : Type} (step : A -> X -> option A) (l : list X) (a : A)
  : option A :=
  match l with
  | [] => Some a
  | x :: l' =>
      match step a x with
      | Some a' => scan step l' a'
      | None => None
      end
  end.

(** The locals of the friendly scan that the rest of the classifier looks
    at: whether needs_more_lib is set, needs_more_lib_except and
    friend_has_no_libs. *)
Definition friendly_locals : Type := (bool * coord_t * bool)%type.

Definition locals_of (s : selfatari_state) : friendly_locals :=
  (negb (needs_more_lib s =? 0), needs_more_lib_except s,
   friend_has_no_libs s).

(** One round of the friendly scan at a point with two or more friendly
    neighbouring groups, where the three-liberty check answers false;
    [cN] is [groupcts[S_NONE]]. *)
Definition friendly_step (b : board) (to : coord_t) (cN : Z)
  (a : friendly_locals) (g : group_t) : option friendly_locals :=
  let '(set, except, fhnl) := a in
  if libs b g =? 1 then Some (set, except, if set then fhnl else true)
  else if libs b g >? 2 then None
  else
    let lib2 := board_group_other_lib b g to in
    if set && negb (except =? lib2) then None
    else if cN >? 1 then None
    else if (cN >? 0) && negb (coord_is_adjecent b lib2 to) then None
    else Some (true, lib2, false).

(** One round of the enemy scan; the local is whether can_capture is
    set. *)
Definition enemy_step (b : board) (color : stone) (s : selfatari_state)
  (captured : bool) (g : group_t) : option bool :=
  if libs b g >? 1 then Some captured
  else if (groupcts s S_NONE >? 0) || negb (group_is_onestone b g)
  then None
  else if ko_stone b color g && negb (friend_has_no_libs s) then None
  else if negb (needs_more_lib s =? 0) || captured then None
  else Some true.

(** Two states that the analyzers after the friendly scan cannot tell
    apart but for the order of the buckets. *)
Definition similar (s s' : selfatari_state) : Prop :=
  (forall col, Permutation (groupids s col) (groupids s' col))
  /\ friend_has_no_libs s = friend_has_no_libs s'
  /\ (needs_more_lib s =? 0) = (needs_more_lib s' =? 0).

Definition same_outcome (r r' : result (Z * selfatari_state)) : Prop :=
  match r, r' with
  | Ok (d, s), Ok (d', s') => d = d' /\ (d = -1 -> similar s s')
  | Fault f, Fault f' => f = f'
  | _, _ => False
  end.

(** [is_bad_selfatari_slow] from the return of the friendly scan on. *)
Definition after_friendly_scan (b : board) (color : stone) (to : coord_t)
  (ds : Z * selfatari_state) : result bool :=
  let '(d, s) := ds in
  if d >=? 0 then Ok (int_to_bool d)
  else
    let d := examine_enemy_groups b color to s in
    if d >=? 0 then Ok (int_to_bool d)
    else
      d <- setup_nakade_or_snapback b color to s ;;
      if d >=? 0 then Ok (int_to_bool d)
      else
        d <- check_throwin b color to s ;;
        if d >=? 0 then Ok (int_to_bool d)
        else Ok true.

(** * Properties *)

Ltac conjuncts :=
  cbv zeta; repeat match goal with |- _ /\ _ => split end.

(** Closed goals about a given position are settled by evaluation. *)
Ltac run :=
  match goal with
  | |- _ = _ => vm_compute; reflexivity
  | |- _ <> _ => vm_compute; discriminate
  | |- (_ <= _)%Z => vm_compute; discriminate
  end.

Ltac zbool :=
  repeat match goal with
  | H : context [?a >? ?b] |- _ => rewrite (Z.gtb_ltb a b) in H
  | |- context [?a >? ?b] => rewrite (Z.gtb_ltb a b)
  | H : context [?a >=? ?b] |- _ => rewrite (Z.geb_leb a b) in H
  | |- context [?a >=? ?b] => rewrite (Z.geb_leb a b)
  end.

(** ** The diagrams of the source

    The classifier run on the positions drawn in the comments of the
    source gives what the comments say. *)

(** Filling an outer point of the three-point eye space kills the group
    clumsily; the middle point does not. *)
Example three_liberty_diagram :
  is_bad_selfatari_slow Positions.eyespace_board S_BLACK 30 = Ok true
  /\ is_bad_selfatari_slow Positions.eyespace_board S_BLACK 31 = Ok false
  /\ is_bad_selfatari_slow Positions.eyespace_board S_BLACK 32 = Ok true.
Proof. conjuncts; run. Qed.

(** Play on a is not allowed; play on b, next to the stone in atari, is. *)
Example nakade_diagram :
  is_bad_selfatari_slow Positions.two_groups_board S_WHITE 21 = Ok true
  /\ is_bad_selfatari_slow Positions.two_groups_board S_WHITE 30 = Ok false.
Proof. conjuncts; run. Qed.

(** ** The scans *)

Section Scans.

Variable b : board.
Variable color : stone.
Variable to : coord_t.

Lemma friendly_loop_groupids gs : forall s d s',
  examine_friendly_loop b color to gs s = Ok (d, s') ->
  groupids s' = groupids s.
Proof.
  induction gs as [|g gs IH]; simpl; intros s d s' H.
  - now inversion H.
  - destruct (libs b g =? 1).
    { apply IH in H. rewrite H. now destruct (needs_more_lib s =? 0). }
    destruct (libs b g >? 2).
    { destruct (libs b g =? 3).
      - destruct (three_liberty_suicide b g color to s); simpl in H;
          now inversion H.
      - now inversion H. }
    repeat match type of H with
    | (if ?c then _ else _) = _ => destruct c; [now inversion H|]
    end.
    apply IH in H. now rewrite H.
Qed.

Lemma friendly_loop_app pre : forall s s1 rest,
  examine_friendly_loop b color to pre s = Ok (-1, s1) ->
  examine_friendly_loop b color to (pre ++ rest) s
  = examine_friendly_loop b color to rest s1.
Proof.
  induction pre as [|g pre IH]; simpl; intros s s1 rest H.
  - now inversion H.
  - destruct (libs b g =? 1); [now apply IH|].
    destruct (libs b g >? 2).
    { destruct (libs b g =? 3); [|discriminate].
      destruct (three_liberty_suicide b g color to s) as [[|]|];
        discriminate. }
    repeat match type of H with
    | (if ?c then _ else _) = _ => destruct c; [discriminate|]
    end.
    now apply IH.
Qed.

Lemma enemy_loop_app s pre : forall cc0 cc rest,
  examine_enemy_loop b color s pre cc0 = Next cc ->
  examine_enemy_loop b color s (pre ++ rest) cc0
  = examine_enemy_loop b color s rest cc.
Proof.
  induction pre as [|g pre IH]; simpl; intros cc0 cc rest H.
  - now inversion H.
  - repeat match type of H with
    | (if ?c then _ else _) = _ => destruct c; try discriminate
    end; now apply IH.
Qed.

(** The verdict of the orchestrator once the friendly scan has one. *)
Lemma slow_friendly_verdict d s1 :
  groupcts (collect_groups b to) S_NONE <= 1 ->
  examine_friendly_groups b color to (collect_groups b to) = Ok (d, s1) ->
  0 <= d ->
  is_bad_selfatari_slow b color to = Ok (int_to_bool d).
Proof.
  intros Ha Hf Hd. unfold is_bad_selfatari_slow.
  replace (groupcts (collect_groups b to) S_NONE <=? 1) with true
    by (symmetry; now apply Z.leb_le).
  simpl. rewrite Hf. simpl.
  replace (d >=? 0) with true by (symmetry; zbool; now apply Z.leb_le).
  reflexivity.
Qed.

(** The verdict of the orchestrator once the enemy scan has one. *)
Lemma slow_enemy_verdict d s1 :
  groupcts (collect_groups b to) S_NONE <= 1 ->
  examine_friendly_groups b color to (collect_groups b to) = Ok (-1, s1) ->
  examine_enemy_groups b color to s1 = d ->
  0 <= d ->
  is_bad_selfatari_slow b color to = Ok (int_to_bool d).
Proof.
  intros Ha Hf He Hd. unfold is_bad_selfatari_slow.
  replace (groupcts (collect_groups b to) S_NONE <=? 1) with true
    by (symmetry; now apply Z.leb_le).
  simpl. rewrite Hf. simpl. rewrite He.
  replace (d >=? 0) with true by (symmetry; zbool; now apply Z.leb_le).
  reflexivity.
Qed.

End Scans.

Lemma stone_eqb_eq (a c : stone) : stone_eqb a c = true <-> a = c.
Proof. destruct a, c; simpl; split; congruence. Qed.

Lemma stone_eqb_refl (a : stone) : stone_eqb a a = true.
Proof. now destruct a. Qed.

Lemma existsb_eqb_In (x : Z) (l : list Z) :
  existsb (Z.eqb x) l = true <-> In x l.
Proof.
  rewrite existsb_exists. split.
  - intros (y & Hy & E). apply Z.eqb_eq in E. now subst.
  - intros H. exists x. split; [exact H|apply Z.eqb_refl].
Qed.

(** *** The collector *)

Section Collector.

Variable b : board.

(** What the buckets hold after the neighbours [l] have been visited. *)
Lemma collect_spec (l : list coord_t) : forall s,
  (forall col, NoDup (groupids s col)) ->
  let s' := fold_left (collect_neighbor b) l s in
  (forall col, NoDup (groupids s' col))
  /\ (forall col g,
        In g (groupids s' col) <->
        In g (groupids s col)
        \/ exists c, In c l /\ board_at b c = col /\ group_at b c = g)
  /\ friend_has_no_libs s' = friend_has_no_libs s
  /\ needs_more_lib s' = needs_more_lib s.
Proof.
  induction l as [|c l IH]; intros s Hnd; simpl.
  - repeat split; auto. intros [H|(c & [] & _)]; exact H.
  - set (s1 := collect_neighbor b s c).
    assert (Hnd1 : forall col, NoDup (groupids s1 col)).
    { intros col. unfold s1, collect_neighbor.
      destruct (existsb _ _) eqn:E; [apply Hnd|]. simpl.
      destruct (stone_eqb col (board_at b c)); [|apply Hnd].
      apply NoDup_app; [apply Hnd|repeat constructor; simpl; tauto|].
      intros x Hx [<-|[]].
      apply existsb_eqb_In in Hx. congruence. }
    assert (Hin1 : forall col g,
              In g (groupids s1 col) <->
              In g (groupids s col)
              \/ (board_at b c = col /\ group_at b c = g)).
    { intros col g. unfold s1, collect_neighbor.
      destruct (existsb _ _) eqn:E.
      - apply existsb_eqb_In in E. split; [tauto|].
        intros [H|[<- <-]]; [exact H|exact E].
      - simpl. destruct (stone_eqb col (board_at b c)) eqn:Ec.
        + apply stone_eqb_eq in Ec. subst col. rewrite in_app_iff. simpl.
          intuition congruence.
        + split; [tauto|]. intros [H|[<- _]]; [exact H|].
          now rewrite stone_eqb_refl in Ec. }
    destruct (IH s1 Hnd1) as (H1 & H2 & H3 & H4).
    split; [exact H1|]. split; [|split].
    + intros col g. rewrite H2, Hin1. split.
      * intros [[H|[Hc Hg]]|(c' & Hc' & H)]; [tauto| |].
        -- right. exists c. tauto.
        -- right. exists c'. tauto.
      * intros [H|(c' & [<-|Hc'] & H)]; [tauto|tauto|].
        right. exists c'. tauto.
    + rewrite H3. unfold s1, collect_neighbor.
      now destruct (existsb _ _).
    + rewrite H4. unfold s1, collect_neighbor.
      now destruct (existsb _ _).
Qed.

Lemma collect_groups_spec (to : coord_t) :
  (forall col, NoDup (groupids (collect_groups b to) col))
  /\ (forall col g,
        In g (groupids (collect_groups b to) col) <->
        exists c, In c (neighbors b to)
                  /\ board_at b c = col /\ group_at b c = g)
  /\ friend_has_no_libs (collect_groups b to) = false
  /\ needs_more_lib (collect_groups b to) = 0.
Proof.
  destruct (collect_spec (neighbors b to) state0) as (H1 & H2 & H3 & H4).
  { intros col. constructor. }
  split; [exact H1|]. split; [|split; assumption].
  intros col g. rewrite H2. simpl. tauto.
Qed.

End Collector.

(** A point with no empty neighbour has an empty [S_NONE] bucket, one with
    exactly one empty neighbour has one entry in it. *)
Lemma no_empty_neighbor_count (b : board) (to : coord_t) :
  empty_neighbors b to = [] ->
  groupcts (collect_groups b to) S_NONE = 0.
Proof.
  intros H.
  destruct (collect_groups_spec b to) as (_ & Hin & _).
  unfold groupcts.
  destruct (groupids (collect_groups b to) S_NONE) as [|g l] eqn:E;
    [reflexivity|].
  exfalso.
  assert (Hg : In g (groupids (collect_groups b to) S_NONE))
    by (rewrite E; now left).
  apply Hin in Hg. destruct Hg as (c & Hc & Hcol & _).
  assert (Hc' : In c (empty_neighbors b to)).
  { apply filter_In. split; [exact Hc|]. now rewrite Hcol. }
  now rewrite H in Hc'.
Qed.

Lemma one_empty_neighbor_count (b : board) (to e : coord_t) :
  empty_neighbors b to = [e] ->
  groupcts (collect_groups b to) S_NONE = 1.
Proof.
  intros H.
  destruct (collect_groups_spec b to) as (Hnd & Hin & _).
  assert (Hiff : forall g, In g (groupids (collect_groups b to) S_NONE)
                           <-> g = group_at b e).
  { intros g. rewrite Hin. split.
    - intros (c & Hc & Hcol & Hg).
      assert (Hc' : In c (empty_neighbors b to)).
      { apply filter_In. split; [exact Hc|]. now rewrite Hcol. }
      rewrite H in Hc'. destruct Hc' as [<-|[]]. now symmetry.
    - intros ->. exists e.
      assert (He : In e (empty_neighbors b to)) by (rewrite H; now left).
      apply filter_In in He. destruct He as [He1 He2].
      apply stone_eqb_eq in He2. auto. }
  specialize (Hnd S_NONE). unfold groupcts.
  destruct (groupids (collect_groups b to) S_NONE) as [|g [|g' l]].
  - exfalso. now apply (Hiff (group_at b e)).
  - reflexivity.
  - exfalso. inversion Hnd as [|? ? Hg _]. apply Hg. left.
    transitivity (group_at b e).
    + apply Hiff. right. now left.
    + symmetry. apply Hiff. now left.
Qed.

(** C1, as the code has it: when the enemy scan comes to a single enemy
    stone in atari that has the ko shape, the candidate point has no empty
    neighbour and no friendly group is without liberties
    (friend_has_no_libs is false), the scan returns false on the spot and
    isBadSelfAtari answers "not bad" (false): taking the ko stone counts
    as an escape. *)
Theorem C1_ko_capture_not_bad (b : board) (color : stone) (to : coord_t)
  (s1 : selfatari_state) (g cc : group_t) :
  examine_friendly_groups b color to (collect_groups b to) = Ok (-1, s1) ->
  enemy_scan_examines b color s1 g cc ->
  libs b g = 1 ->
  group_is_onestone b g = true ->
  ko_stone b color g = true ->
  empty_neighbors b to = [] ->
  friend_has_no_libs s1 = false ->
  examine_enemy_groups b color to s1 = 0 /\
  is_bad_selfatari_slow b color to = Ok false.
Proof.
  intros Hf (pre & post & Hids & Hpre) Hl H1 Hko Hempty Hfr.
  pose proof (no_empty_neighbor_count b to Hempty) as H0.
  assert (Hn : groupcts s1 S_NONE = 0).
  { unfold examine_friendly_groups in Hf.
    apply friendly_loop_groupids in Hf.
    unfold groupcts in *. now rewrite Hf. }
  assert (He : examine_enemy_groups b color to s1 = 0).
  { unfold examine_enemy_groups.
    rewrite Hids, (enemy_loop_app b color s1 pre 0 cc _ Hpre). simpl.
    rewrite Hl, Hn, H1, Hko, Hfr. reflexivity. }
  split; [exact He|].
  apply (slow_enemy_verdict b color to 0 s1); try assumption; lia.
Qed.

Lemma C1_witness :
  is_bad_selfatari_slow Positions.ko_board S_BLACK 39 = Ok false.
Proof.
  refine (proj2 (@C1_ko_capture_not_bad Positions.ko_board S_BLACK 39
                   (collect_groups Positions.ko_board 39) 38 0
                   _ _ _ _ _ _ _)).
  - run.
  - exists [30], [40; 48]. split; run.
  - run.
  - run.
  - run.
  - run.
  - run.
Defined.

(** C1 as stated fails: black at (3,4) of [ko_pos] takes the white ko stone
    (2,4), group 38; the stone is alone, in atari and in ko shape, the
    point has no empty neighbour and no black group next to it, no liberty
    is credited, neither the nakade nor the throw-in analysis recognises
    anything, and yet the verdict is "not bad" (false), not "bad". *)
Lemma C1_counterexample :
  let b := Positions.ko_board in
  let s1 := collect_groups b 39 in
  examine_friendly_groups b S_BLACK 39 (collect_groups b 39) = Ok (-1, s1)
  /\ enemy_scan_examines b S_BLACK s1 38 0
  /\ libs b 38 = 1
  /\ group_is_onestone b 38 = true
  /\ ko_stone b S_BLACK 38 = true
  /\ empty_neighbors b 39 = []
  /\ groupids s1 S_BLACK = []
  /\ friend_has_no_libs s1 = false
  /\ needs_more_lib s1 = 0
  /\ setup_nakade_or_snapback b S_BLACK 39 s1 = Ok (-1)
  /\ check_throwin b S_BLACK 39 s1 = Ok (-1)
  /\ is_bad_selfatari_slow b S_BLACK 39 = Ok false.
Proof.
  conjuncts; try run.
  exists [30], [40; 48]. split; run.
Qed.

(** C2: when the friendly scan and the loop of the enemy scan end without
    a verdict, no group is left to capture, needs_more_lib is unset and
    the candidate point has no empty neighbour, the enemy scan returns true
    and isBadSelfAtari answers "bad" (true). *)
Theorem C2_plain_suicide (b : board) (color : stone) (to : coord_t)
  (s1 : selfatari_state) :
  examine_friendly_groups b color to (collect_groups b to) = Ok (-1, s1) ->
  examine_enemy_loop b color s1 (groupids s1 (stone_other color)) 0
  = Next 0 ->
  needs_more_lib s1 = 0 ->
  empty_neighbors b to = [] ->
  examine_enemy_groups b color to s1 = 1 /\
  is_bad_selfatari_slow b color to = Ok true.
Proof.
  intros Hf Hloop Hn Hempty.
  pose proof (no_empty_neighbor_count b to Hempty) as H0.
  assert (Hc : groupcts s1 S_NONE = 0).
  { unfold examine_friendly_groups in Hf.
    apply friendly_loop_groupids in Hf.
    unfold groupcts in *. now rewrite Hf. }
  assert (He : examine_enemy_groups b color to s1 = 1).
  { unfold examine_enemy_groups. rewrite Hloop, Hn, Hc. reflexivity. }
  split; [exact He|].
  apply (slow_enemy_verdict b color to 1 s1); try assumption; lia.
Qed.

Lemma C2_witness :
  is_bad_selfatari_slow Positions.ko_board S_BLACK 10 = Ok true.
Proof.
  refine (proj2 (@C2_plain_suicide Positions.ko_board S_BLACK 10
                   (collect_groups Positions.ko_board 10) _ _ _ _));
    vm_compute; reflexivity.
Defined.

(** C3, as the code has it: when the friendly scan examines a group [g]
    with two liberties while needs_more_lib records another group whose
    recorded liberty differs from the other liberty of [g], the scan
    returns false and isBadSelfAtari answers "not bad" (false): the two
    groups bring two different liberties to the move. *)
Theorem C3_second_liberty_not_bad (b : board) (color : stone)
  (to : coord_t) (g : group_t) (s1 : selfatari_state) :
  groupcts (collect_groups b to) S_NONE <= 1 ->
  friendly_scan_examines b color to g s1 ->
  libs b g = 2 ->
  needs_more_lib s1 <> 0 ->
  needs_more_lib s1 <> g ->
  needs_more_lib_except s1 <> board_group_other_lib b g to ->
  examine_friendly_groups b color to (collect_groups b to) = Ok (0, s1) /\
  is_bad_selfatari_slow b color to = Ok false.
Proof.
  intros Ha (pre & post & Hids & Hpre) Hl Hn Hg He.
  assert (Hf : examine_friendly_groups b color to (collect_groups b to)
               = Ok (0, s1)).
  { unfold examine_friendly_groups.
    rewrite Hids, (friendly_loop_app b color to pre _ s1 _ Hpre). simpl. rewrite Hl.
    simpl.
    destruct (Z.eqb_spec (needs_more_lib s1) 0); [contradiction|].
    destruct (Z.eqb_spec (needs_more_lib s1) g); [contradiction|].
    destruct (Z.eqb_spec (needs_more_lib_except s1)
                (board_group_other_lib b g to)); [contradiction|].
    reflexivity. }
  split; [exact Hf|].
  apply (slow_friendly_verdict b color to 0 s1); try assumption; lia.
Qed.

Lemma C3_witness :
  is_bad_selfatari_slow Positions.edge_board S_BLACK 67 = Ok false.
Proof.
  refine (proj2 (@C3_second_liberty_not_bad Positions.edge_board S_BLACK 67
                   68 (set_needs_more_lib
                         (collect_groups Positions.edge_board 67) 65 56)
                   _ _ _ _ _ _)).
  - vm_compute; discriminate.
  - exists [65], []. split; vm_compute; reflexivity.
  - vm_compute; reflexivity.
  - vm_compute; discriminate.
  - vm_compute; discriminate.
  - vm_compute; discriminate.
Defined.

(** C3 as stated fails: at (4,7) of [edge_pos] the scan has recorded the
    black group 65 with its other liberty (2,6) when it examines the black
    group 68, whose other liberty is (6,6); the verdict is "not bad"
    (false), not "bad". *)
Lemma C3_counterexample :
  let b := Positions.edge_board in
  let s1 := set_needs_more_lib (collect_groups b 67) 65 56 in
  friendly_scan_examines b S_BLACK 67 68 s1
  /\ libs b 68 = 2
  /\ needs_more_lib s1 <> 0
  /\ needs_more_lib s1 <> 68
  /\ needs_more_lib_except s1 <> board_group_other_lib b 68 67
  /\ is_bad_selfatari_slow b S_BLACK 67 = Ok false.
Proof.
  conjuncts; try run.
  exists [65], []. split; vm_compute; reflexivity.
Qed.

(** C4, as the code has it: when the friendly scan examines a group [g]
    with two liberties, no other requirement conflicts, the candidate
    point has exactly one empty neighbour and the other liberty of [g] is
    not adjacent to the candidate point, the scan returns false and
    isBadSelfAtari answers "not bad" (false): the empty neighbour is a
    second liberty. *)
Theorem C4_local_liberty_not_bad (b : board) (color : stone)
  (to e : coord_t) (g : group_t) (s1 : selfatari_state) :
  friendly_scan_examines b color to g s1 ->
  libs b g = 2 ->
  needs_more_lib s1 = 0 \/ needs_more_lib s1 = g
  \/ needs_more_lib_except s1 = board_group_other_lib b g to ->
  empty_neighbors b to = [e] ->
  coord_is_adjecent b (board_group_other_lib b g to) to = false ->
  examine_friendly_groups b color to (collect_groups b to) = Ok (0, s1) /\
  is_bad_selfatari_slow b color to = Ok false.
Proof.
  intros (pre & post & Hids & Hpre) Hl Hn He Hadj.
  pose proof (one_empty_neighbor_count b to e He) as Hc.
  assert (Hc1 : groupcts s1 S_NONE = 1).
  { apply friendly_loop_groupids in Hpre.
    unfold groupcts in *. now rewrite Hpre. }
  assert (Hf : examine_friendly_groups b color to (collect_groups b to)
               = Ok (0, s1)).
  { unfold examine_friendly_groups.
    rewrite Hids, (friendly_loop_app b color to pre _ s1 _ Hpre). simpl.
    rewrite Hl, Hc1, Hadj. simpl.
    destruct Hn as [Hn|[Hn|Hn]]; rewrite Hn; rewrite ?Z.eqb_refl; simpl;
      rewrite ?andb_false_r; reflexivity. }
  split; [exact Hf|].
  apply (slow_friendly_verdict b color to 0 s1); try assumption; lia.
Qed.

Lemma C4_witness :
  is_bad_selfatari_slow Positions.edge_board S_BLACK 60 = Ok false.
Proof.
  refine (proj2 (@C4_local_liberty_not_bad Positions.edge_board S_BLACK 60
                   51 68 (collect_groups Positions.edge_board 60)
                   _ _ _ _ _)).
  - exists [], []. split; run.
  - run.
  - left. run.
  - run.
  - run.
Defined.

(** C4 as stated fails: at (6,6) of [edge_pos] the scan examines the black
    group 68 with liberties (4,7) and (6,6), nothing is recorded yet, the
    only empty neighbour of the point is (6,5), which is not adjacent to
    the other liberty (4,7) (nor is (4,7) adjacent to the point); the
    verdict is "not bad" (false), not "bad". *)
Lemma C4_counterexample :
  let b := Positions.edge_board in
  let s1 := collect_groups b 60 in
  friendly_scan_examines b S_BLACK 60 68 s1
  /\ libs b 68 = 2
  /\ needs_more_lib s1 = 0
  /\ board_group_other_lib b 68 60 = 67
  /\ empty_neighbors b 60 = [51]
  /\ coord_is_adjecent b 51 67 = false
  /\ coord_is_adjecent b 67 60 = false
  /\ is_bad_selfatari_slow b S_BLACK 60 = Ok false.
Proof.
  conjuncts; try run.
  exists [], []. split; run.
Qed.

(** ** The three-liberty check and the eye *)

(** With both slots written no read goes wrong, and the check is the
    straight-line code over the two entries. *)
Lemma three_liberty_suicide_full (b : board) (g : group_t) (color : stone)
  (to : coord_t) (s : selfatari_state) (l0 l1 : coord_t) (a0 a1 : bool) :
  other_libs b g to = Ok [(l0, a0); (l1, a1)] ->
  three_liberty_suicide b g color to s
  = if immediate_liberty_count b to - b2z (a0 || a1) >? 0 then Ok false
    else
      _ <- assert (negb (a0 && a1)) ;;
      if groupcts s color >? 1 then Ok false
      else if existsb (fun g' => libs b g' <=? 2)
                      (groupids s (stone_other color))
      then Ok false
      else
        match final_test b g color (coord_is_adjecent b l0 l1) l0 l1 a0 with
        | Some v => Ok v
        | None =>
            match final_test b g color (coord_is_adjecent b l0 l1) l1 l0 a1
            with
            | Some v => Ok v
            | None => Ok false
            end
        end.
Proof.
  intros H. unfold three_liberty_suicide. rewrite H.
  destruct a0; reflexivity.
Qed.

(** The loop leaves at most two entries, or writes past the arrays. *)
Lemma other_libs_shape (b : board) (g : group_t) (to : coord_t) :
  other_libs b g to = Fault Undefined
  \/ (exists ol, other_libs b g to = Ok ol /\ (length ol < 2)%nat)
  \/ exists l0 a0 l1 a1, other_libs b g to = Ok [(l0, a0); (l1, a1)].
Proof.
  unfold other_libs. simpl.
  destruct (lib b g 0 =? to), (lib b g 1 =? to), (lib b g 2 =? to); simpl;
    try (now left);
    try (right; left; eexists; split; [reflexivity|simpl; lia]);
    right; right; repeat eexists.
Qed.

(** With a slot left unset the check returns false at its guard or reads
    the unset slot. *)
Lemma three_liberty_suicide_short (b : board) (g : group_t) (color : stone)
  (to : coord_t) (s : selfatari_state) (ol : list (coord_t * bool)) :
  other_libs b g to = Ok ol ->
  (length ol < 2)%nat ->
  three_liberty_suicide b g color to s = Ok false
  \/ three_liberty_suicide b g color to s = Fault Undefined.
Proof.
  intros H Hlen. unfold three_liberty_suicide. rewrite H.
  destruct ol as [|[l0 a0] [|e ol]]; simpl in *; try lia; [now right|].
  destruct a0; simpl; [|now right].
  destruct (_ >? 0); [now left|now right].
Qed.

(** With the eye in the second slot, nothing but "not bad" comes out of
    the three-liberty check (short of its assertion). *)
Lemma eye_in_second_slot (b : board) (g : group_t) (color : stone)
  (to : coord_t) (s : selfatari_state) (l0 l1 : coord_t) (a0 a1 : bool) :
  other_libs b g to = Ok [(l0, a0); (l1, a1)] ->
  board_is_one_point_eye b l1 color = true ->
  three_liberty_suicide b g color to s = Ok false
  \/ three_liberty_suicide b g color to s = Fault AssertFail.
Proof.
  intros Hol Heye. rewrite (three_liberty_suicide_full _ _ _ _ _ _ _ _ _ Hol).
  destruct (_ >? 0); [now left|].
  destruct (negb (a0 && a1)); simpl; [|now right].
  destruct (_ >? 1); [now left|].
  destruct (existsb _ _); [now left|].
  unfold final_test at 1. rewrite Heye. now left.
Qed.

(** C5 fails on the code for the eye in the first slot.  The black group
    38 of [ring_pos] has the liberties (3,5), an eye of its own, (3,3) and
    (5,5).  With the liberty array starting with the eye, black at (5,5)
    is "bad" (true): the first round finds no way out at the eye and
    returns before the second round looks at the eye.  With the same
    stones and the eye second in the array the verdict is "not bad". *)
Theorem C5_eye_in_first_slot_is_bad :
  let b := Positions.ring_board_eye_first in
  groupids (collect_groups b 50) S_BLACK = [38]
  /\ libs b 38 = 3
  /\ map (lib b 38) [0; 1; 2]%nat = [48; 30; 50]
  /\ other_libs b 38 50 = Ok [(48, false); (30, false)]
  /\ board_is_one_point_eye b 48 S_BLACK = true
  /\ three_liberty_suicide b 38 S_BLACK 50 (collect_groups b 50) = Ok true
  /\ is_bad_selfatari_slow b S_BLACK 50 = Ok true
  /\ map (lib Positions.ring_board 38) [0; 1; 2]%nat = [30; 48; 50]
  /\ is_bad_selfatari_slow Positions.ring_board S_BLACK 50 = Ok false.
Proof. conjuncts; run. Qed.

(** ** The nakade scan *)

Lemma disqualified_next_group (b : board) (color : stone) (to : coord_t)
  (s : selfatari_state) (g : group_t) :
  disqualified b color to s g ->
  nakade_group b color to s g = Ok None.
Proof.
  intros [Hl H]. unfold nakade_group. rewrite Hl. simpl.
  destruct H as [H|(H & Hc & H1 & H2)]; rewrite H; simpl; [reflexivity|].
  rewrite Hc, H1, H2. reflexivity.
Qed.

(** C6, as the code has it: when the nakade scan gives up an enemy group
    with two liberties, it stops with no verdict if the candidate point has
    a friendly neighbouring group, and goes on to the next enemy group only
    if it has none. *)
Theorem C6_after_disqualified_group (b : board) (color : stone)
  (to : coord_t) (s : selfatari_state) (g : group_t) (rest : list group_t) :
  disqualified b color to s g ->
  (groupcts s color <> 0 ->
   nakade_loop b color to s (g :: rest) = Ok (-1))
  /\ (groupcts s color = 0 ->
      nakade_loop b color to s (g :: rest) = nakade_loop b color to s rest).
Proof.
  intros H. apply disqualified_next_group in H.
  simpl. rewrite H. simpl.
  split; intros Hc.
  - destruct (Z.eqb_spec (groupcts s color) 0); [contradiction|reflexivity].
  - now rewrite Hc.
Qed.

Lemma C6_witness :
  nakade_loop Positions.nakade_board S_BLACK 46
    (collect_groups Positions.nakade_board 46) [37; 47] = Ok (-1).
Proof.
  refine (proj1 (C6_after_disqualified_group Positions.nakade_board S_BLACK
                   46 (collect_groups Positions.nakade_board 46) 37 [47] _)
                _).
  - split; [run|]. cbv zeta. left. run.
  - run.
Defined.

(** C6 as stated fails both ways.  At (1,5) of [nakade_pos], next to the
    black group 55, the white stone 37 is given up (its other liberty
    (1,3) has an empty neighbour) and the scan stops with no verdict,
    although the next white group 47 would give "not bad".  At (1,4) of
    [throwin_pos], with no black neighbour, the white stone 38 is given up
    and the scan goes on to the white stone 46 and returns "not bad". *)
Lemma C6_counterexample :
  let b := Positions.nakade_board in
  let s := collect_groups b 46 in
  let b' := Positions.throwin_board in
  let s' := collect_groups b' 37 in
  (groupids s S_WHITE = [37; 47]
   /\ groupcts s S_BLACK = 1
   /\ disqualified b S_BLACK 46 s 37
   /\ nakade_loop b S_BLACK 46 s [47] = Ok 0
   /\ nakade_loop b S_BLACK 46 s [37; 47] = Ok (-1))
  /\ (groupids s' S_WHITE = [38; 46]
      /\ groupcts s' S_BLACK = 0
      /\ disqualified b' S_BLACK 37 s' 38
      /\ nakade_loop b' S_BLACK 37 s' [38; 46] = Ok 0).
Proof.
  conjuncts; try run.
  - split; [run|]. cbv zeta. left. run.
  - split; [run|]. cbv zeta. left. run.
Qed.

(** ** The throw-in check *)

Section Throwin.

Variable b : board.
Variable color : stone.
Variable to : coord_t.

(** A friendly scan without verdict has seen no group with more than two
    liberties. *)
Lemma friendly_inconclusive_libs gs : forall s s',
  examine_friendly_loop b color to gs s = Ok (-1, s') ->
  forall g, In g gs -> libs b g <= 2.
Proof.
  induction gs as [|g0 gs IH]; simpl; intros s s' H g Hin; [tauto|].
  destruct (Z.eqb_spec (libs b g0) 1) as [E1|E1].
  { destruct Hin as [<-|Hin]; [lia|]. eapply IH; eauto. }
  rewrite Z.gtb_ltb in H.
  destruct (Z.ltb_spec 2 (libs b g0)) as [E2|E2].
  { destruct (libs b g0 =? 3); [|discriminate].
    destruct (three_liberty_suicide b g0 color to s) as [[|]|];
      discriminate. }
  repeat match type of H with
  | (if ?c then _ else _) = _ => destruct c; [discriminate|]
  end.
  destruct Hin as [<-|Hin]; [lia|]. eapply IH; eauto.
Qed.

(** The verdict of the orchestrator when the first three analyzers have
    none. *)
Lemma slow_throwin_verdict s1 :
  groupcts (collect_groups b to) S_NONE <= 1 ->
  examine_friendly_groups b color to (collect_groups b to) = Ok (-1, s1) ->
  examine_enemy_groups b color to s1 = -1 ->
  setup_nakade_or_snapback b color to s1 = Ok (-1) ->
  is_bad_selfatari_slow b color to
  = (d <- check_throwin b color to s1 ;;
     if d >=? 0 then Ok (int_to_bool d) else Ok true).
Proof.
  intros Ha Hf He Hn. unfold is_bad_selfatari_slow.
  replace (groupcts (collect_groups b to) S_NONE <=? 1) with true
    by (symmetry; now apply Z.leb_le).
  simpl. rewrite Hf. simpl. rewrite He. simpl. rewrite Hn. reflexivity.
Qed.

End Throwin.

(** C7: when the first three analyzers have no verdict, the throw-in
    check applies and the candidate point has exactly one friendly
    neighbouring group [g]: with [g] in atari the verdict is "bad" (true);
    with [g] a single stone of two liberties it is "not bad" (false);
    otherwise the check has no verdict and the default "bad" (true) is
    returned. *)
Theorem C7_throwin_with_one_friend (b : board) (color : stone)
  (to : coord_t) (s1 : selfatari_state) (g : group_t) :
  groupcts (collect_groups b to) S_NONE <= 1 ->
  examine_friendly_groups b color to (collect_groups b to) = Ok (-1, s1) ->
  examine_enemy_groups b color to s1 = -1 ->
  setup_nakade_or_snapback b color to s1 = Ok (-1) ->
  throwin_applies b color to = true ->
  groupids s1 color = [g] ->
  (libs b g = 1 ->
   check_throwin b color to s1 = Ok 1
   /\ is_bad_selfatari_slow b color to = Ok true)
  /\ (libs b g = 2 -> group_is_onestone b g = true ->
      check_throwin b color to s1 = Ok 0
      /\ is_bad_selfatari_slow b color to = Ok false)
  /\ (libs b g <> 1 -> group_is_onestone b g = false ->
      check_throwin b color to s1 = Ok (-1)
      /\ is_bad_selfatari_slow b color to = Ok true).
Proof.
  intros Ha Hf He Hn Happ Hg.
  rewrite (slow_throwin_verdict b color to s1 Ha Hf He Hn).
  assert (Hle : libs b g <= 2).
  { unfold examine_friendly_groups in Hf.
    pose proof (friendly_loop_groupids _ _ _ _ _ _ _ Hf) as Hids.
    rewrite <- Hids, Hg in Hf.
    eapply friendly_inconclusive_libs; [exact Hf|now left]. }
  unfold check_throwin. rewrite Happ. unfold groupcts. rewrite Hg. simpl.
  replace (libs b g <=? 2) with true by (symmetry; now apply Z.leb_le).
  simpl. conjuncts.
  - intros H1. rewrite H1. simpl. now split.
  - intros H2 H1. rewrite H2, H1. simpl. now split.
  - intros H1 Hs.
    destruct (Z.eqb_spec (libs b g) 1); [contradiction|].
    rewrite Hs. simpl. now split.
Qed.

Lemma C7_witness :
  is_bad_selfatari_slow Positions.atari_board S_BLACK 67 = Ok true
  /\ is_bad_selfatari_slow Positions.false_eye_board S_BLACK 67 = Ok false
  /\ is_bad_selfatari_slow Positions.nakade_board S_BLACK 46 = Ok true.
Proof.
  conjuncts.
  - refine (proj2 (proj1
      (C7_throwin_with_one_friend Positions.atari_board S_BLACK 67
         (set_friend_has_no_libs (collect_groups Positions.atari_board 67)
            true) 66 _ _ _ _ _ _) _)); run.
  - refine (proj2 (proj1 (proj2
      (C7_throwin_with_one_friend Positions.false_eye_board S_BLACK 67
         (set_needs_more_lib (collect_groups Positions.false_eye_board 67)
            66 65) 66 _ _ _ _ _ _)) _ _)); run.
  - refine (proj2 (proj2 (proj2
      (C7_throwin_with_one_friend Positions.nakade_board S_BLACK 46
         (set_needs_more_lib (collect_groups Positions.nakade_board 46)
            55 56) 55 _ _ _ _ _ _)) _ _)); run.
Defined.

(** ** The cousin *)

Lemma cousin_groups_spec (b : board) (color : stone) (coord : coord_t)
  (g : group_t) :
  In g (cousin_groups b color coord) <->
  exists c, In c (neighbors b coord) /\ board_at b c = color
            /\ group_at b c = g /\ libs b g = 2.
Proof.
  unfold cousin_groups. rewrite in_flat_map. split.
  - intros (c & Hc & Hg). exists c. unfold cousin_neighbor in Hg.
    destruct (stone_eqb (board_at b c) color) eqn:E; simpl in Hg; [|tauto].
    apply stone_eqb_eq in E.
    destruct (Z.eqb_spec (libs b (group_at b c)) 2); simpl in Hg; [|tauto].
    destruct Hg as [<-|[]]. tauto.
  - intros (c & Hc & Hcol & <- & Hl). exists c. split; [exact Hc|].
    unfold cousin_neighbor. rewrite <- Hcol, stone_eqb_refl, Hl. simpl.
    now left.
Qed.

(** The cousin tries the one group drawn: without a friendly group of two
    liberties the answer is pass, and the other liberty of the drawn group
    is the answer when it is not a bad self-atari. *)
Lemma cousin_of_the_drawn_group (fast_random : nat -> nat) (b : board)
  (color : stone) (coord : coord_t) :
  ((forall c, In c (neighbors b coord) -> board_at b c = color ->
              libs b (group_at b c) <> 2) ->
   selfatari_cousin fast_random b color coord = Ok pass)
  /\ (forall g,
        cousin_groups b color coord <> [] ->
        nth (fast_random (length (cousin_groups b color coord)))
            (cousin_groups b color coord) 0 = g ->
        is_bad_selfatari b color (board_group_other_lib b g coord)
        = Ok false ->
        selfatari_cousin fast_random b color coord
        = Ok (board_group_other_lib b g coord)).
Proof.
  split.
  - intros H. unfold selfatari_cousin.
    destruct (cousin_groups b color coord) as [|g gs] eqn:E; [reflexivity|].
    exfalso.
    assert (Hin : In g (cousin_groups b color coord))
      by (rewrite E; now left).
    apply cousin_groups_spec in Hin.
    destruct Hin as (c & Hc & Hcol & Hg & Hl).
    apply (H c Hc Hcol). now rewrite Hg.
  - intros g Hne Hg Hbad. unfold selfatari_cousin. cbv zeta.
    destruct (Nat.eqb_spec (length (cousin_groups b color coord)) 0)
      as [E|E].
    + apply length_zero_iff_nil in E. contradiction.
    + rewrite Hg, Hbad. reflexivity.
Qed.

(** At (4,7) of [edge_pos], which is not a bad self-atari, the two black
    groups next to the point have different other liberties and the draw
    decides: with the group 65 drawn, whose other liberty (2,6) is a bad
    self-atari, the answer is pass although the other liberty (6,6) of the
    group 68 is not one. *)
Example cousin_away_from_bad_points :
  let b := Positions.edge_board in
  is_bad_selfatari b S_BLACK 67 = Ok false
  /\ cousin_groups b S_BLACK 67 = [65; 68]
  /\ board_group_other_lib b 68 67 = 60
  /\ is_bad_selfatari b S_BLACK 60 = Ok false
  /\ is_bad_selfatari b S_BLACK (board_group_other_lib b 65 67) = Ok true
  /\ selfatari_cousin (fun _ => 0%nat) b S_BLACK 67 = Ok pass.
Proof. conjuncts; run. Qed.

(** ** The assertion of the three-liberty check *)

Lemma two_in_filter (f : coord_t -> bool) (x y : coord_t)
  (l : list coord_t) :
  In x l -> In y l -> x <> y -> f x = true -> f y = true ->
  (2 <= length (filter f l))%nat.
Proof.
  intros Hx Hy Hne Hfx Hfy.
  assert (Hx' : In x (filter f l)) by (apply filter_In; tauto).
  assert (Hy' : In y (filter f l)) by (apply filter_In; tauto).
  destruct (filter f l) as [|a [|a' l']]; simpl in *;
    [tauto|intuition congruence|lia].
Qed.

Lemma distinct_NoDup (l : list Z) : distinct l = true -> NoDup l.
Proof.
  induction l as [|x l IH]; simpl; intros H; constructor.
  - apply andb_prop in H. destruct H as [H _].
    intros Hin. apply existsb_eqb_In in Hin. rewrite Hin in H. discriminate.
  - apply IH. apply andb_prop in H. tauto.
Qed.

Section ThreeLiberties.

Variable b : board.
Variable g : group_t.
Variable to : coord_t.

(** What the extracting loop leaves in the two arrays. *)
Lemma other_libs_inv (l0 l1 : coord_t) (a0 a1 : bool) :
  other_libs b g to = Ok [(l0, a0); (l1, a1)] ->
  exists i j, (i < j < 3)%nat
              /\ l0 = lib b g i /\ l1 = lib b g j
              /\ a0 = coord_is_adjecent b l0 to
              /\ a1 = coord_is_adjecent b l1 to.
Proof.
  unfold other_libs. simpl.
  destruct (lib b g 0 =? to), (lib b g 1 =? to), (lib b g 2 =? to);
    simpl; intros H; inversion H; subst.
  - exists 1%nat, 2%nat. repeat split; lia.
  - exists 0%nat, 2%nat. repeat split; lia.
  - exists 0%nat, 1%nat. repeat split; lia.
Qed.

(** The loop goes wrong only by undefined behaviour. *)
Lemma other_libs_fault (f : fault) :
  other_libs b g to = Fault f -> f = Undefined.
Proof.
  unfold other_libs. simpl.
  destruct (lib b g 0 =? to), (lib b g 1 =? to), (lib b g 2 =? to);
    simpl; intros H; inversion H; reflexivity.
Qed.

Hypothesis three : libs b g = 3.

Lemma lib_list_three : lib_list b g = [lib b g 0; lib b g 1; lib b g 2]%nat.
Proof. unfold lib_list. rewrite three. reflexivity. Qed.

Lemma liberties_ok_inv :
  liberties_ok b to g = true ->
  forall i j, (i < j < 3)%nat ->
    lib b g i <> lib b g j
    /\ (forall k, k = i \/ k = j ->
          board_at b (lib b g k) = S_NONE
          /\ (coord_is_adjecent b (lib b g k) to = true ->
              In (lib b g k) (neighbors b to))).
Proof.
  unfold liberties_ok. rewrite lib_list_three. simpl.
  intros H i j Hij.
  repeat match goal with
  | H : _ && _ = true |- _ => apply andb_prop in H; destruct H
  | H : negb _ = true |- _ => apply negb_true_iff in H
  | H : _ || _ = false |- _ => apply orb_false_iff in H; destruct H
  | H : (_ =? _) = false |- _ => apply Z.eqb_neq in H
  | H : stone_eqb _ _ = true |- _ => apply stone_eqb_eq in H
  end.
  assert (Hadj : forall l, implb (coord_is_adjecent b l to)
                             (existsb (Z.eqb l) (neighbors b to)) = true ->
                 coord_is_adjecent b l to = true -> In l (neighbors b to)).
  { intros l Hi Ha. rewrite Ha in Hi. now apply existsb_eqb_In. }
  assert (Hc : ((i = 0 /\ j = 1) \/ (i = 0 /\ j = 2)
                \/ (i = 1 /\ j = 2))%nat) by lia.
  destruct Hc as [[-> ->]|[[-> ->]|[-> ->]]];
    (split; [congruence|]);
    intros k [->| ->]; split; auto.
Qed.

(** The guard lets the move pass only if at most one of the other two
    liberties is next to the point. *)
Lemma guard_excludes_both_adjacent (l0 l1 : coord_t) (a0 a1 : bool) :
  empty_count_ok b to = true ->
  liberties_ok b to g = true ->
  other_libs b g to = Ok [(l0, a0); (l1, a1)] ->
  (immediate_liberty_count b to - b2z (a0 || a1) >? 0) = false ->
  a0 && a1 = false.
Proof.
  intros Hcount Hok Hol Hguard.
  destruct (other_libs_inv _ _ _ _ Hol) as (i & j & Hij & E0 & E1 & Ea & Eb).
  subst l0 l1 a0 a1.
  destruct (liberties_ok_inv Hok i j Hij) as (Hne & Hk).
  destruct (Hk i (or_introl eq_refl)) as (Hei & Hai).
  destruct (Hk j (or_intror eq_refl)) as (Hej & Haj).
  destruct (coord_is_adjecent b (lib b g i) to) eqn:Ei; [|reflexivity].
  destruct (coord_is_adjecent b (lib b g j) to) eqn:Ej; [|reflexivity].
  exfalso.
  assert (H2 : (2 <= length (empty_neighbors b to))%nat).
  { unfold empty_neighbors.
    apply (two_in_filter _ (lib b g i) (lib b g j)); auto.
    - now rewrite Hei.
    - now rewrite Hej. }
  unfold empty_count_ok in Hcount. apply Z.eqb_eq in Hcount.
  simpl in Hguard. rewrite Z.gtb_ltb in Hguard.
  apply Z.ltb_ge in Hguard. lia.
Qed.

End ThreeLiberties.

(** C10: in the three-liberty check, once control is past the guard on
    the liberty gain, the two other liberties of the group are not both
    adjacent to the candidate point, and so the assertion after the guard
    does not fail.  The board is taken to count the empty neighbours of
    the point and to record the liberties of the group accurately. *)
Theorem C10_assertion_after_guard (b : board) (g : group_t) (color : stone)
  (to : coord_t) (s : selfatari_state) :
  libs b g = 3 ->
  empty_count_ok b to = true ->
  liberties_ok b to g = true ->
  (forall l0 a0 l1 a1,
     other_libs b g to = Ok [(l0, a0); (l1, a1)] ->
     (immediate_liberty_count b to - b2z (a0 || a1) >? 0) = false ->
     a0 && a1 = false)
  /\ three_liberty_suicide b g color to s <> Fault AssertFail.
Proof.
  intros H3 Hcount Hok.
  assert (Hguard : forall l0 a0 l1 a1,
     other_libs b g to = Ok [(l0, a0); (l1, a1)] ->
     (immediate_liberty_count b to - b2z (a0 || a1) >? 0) = false ->
     a0 && a1 = false).
  { intros. eapply guard_excludes_both_adjacent; eauto. }
  split; [exact Hguard|].
  destruct (other_libs_shape b g to)
    as [Hol|[(ol & Hol & Hlen)|(l0 & a0 & l1 & a1 & Hol)]].
  - unfold three_liberty_suicide. rewrite Hol. discriminate.
  - destruct (three_liberty_suicide_short b g color to s ol Hol Hlen)
      as [E|E]; rewrite E; discriminate.
  - rewrite (three_liberty_suicide_full _ _ _ _ _ _ _ _ _ Hol).
    destruct (_ >? 0) eqn:G; [discriminate|].
    rewrite (Hguard _ _ _ _ Hol G). simpl.
    destruct (_ >? 1); [discriminate|].
    destruct (existsb _ _); [discriminate|].
    destruct (final_test _ _ _ _ _ _ _); [discriminate|].
    destruct (final_test _ _ _ _ _ _ _); discriminate.
Qed.

Lemma C10_witness :
  three_liberty_suicide Positions.ring_board 38 S_BLACK 50
    (collect_groups Positions.ring_board 50) <> Fault AssertFail.
Proof.
  refine (proj2 (C10_assertion_after_guard Positions.ring_board 38 S_BLACK
                   50 (collect_groups Positions.ring_board 50) _ _ _));
    run.
Defined.

(** ** Visiting the neighbours in another order *)

Lemma existsb_perm {A : Type} (f : A -> bool) {l l' : list A} :
  Permutation l l' -> existsb f l = existsb f l'.
Proof.
  induction 1; simpl; try congruence.
  now rewrite !orb_assoc, (orb_comm (f y)).
Qed.

Lemma existsb_ext {A : Type} (f f' : A -> bool) (l : list A) :
  (forall x, f x = f' x) -> existsb f l = existsb f' l.
Proof.
  intros H. induction l as [|x l IH]; simpl; [reflexivity|].
  now rewrite H, IH.
Qed.

Lemma forallb_perm {A : Type} (f : A -> bool) {l l' : list A} :
  Permutation l l' -> forallb f l = forallb f l'.
Proof.
  induction 1; simpl; try congruence.
  now rewrite !andb_assoc, (andb_comm (f y)).
Qed.

Lemma perm_singleton_bucket (l l' : list group_t) :
  Permutation l l' -> (length l <= 1)%nat -> l' = l.
Proof.
  intros H Hl. destruct l as [|x [|y l]]; simpl in Hl; try lia.
  - now apply Permutation_nil in H.
  - now apply Permutation_length_1_inv in H.
Qed.

Lemma scan_perm {A X : Type} (step : A -> X -> option A) :
  (forall a x y,
     match step a x with Some a' => step a' y | None => None end
     = match step a y with Some a' => step a' x | None => None end) ->
  forall l l', Permutation l l' ->
  forall a, scan step l a = scan step l' a.
Proof.
  intros Hcomm l l' H.
  induction H as [|x l l' H IH|x y l|l l' l'' H IH H' IH']; intros a; simpl.
  - reflexivity.
  - destruct (step a x); [apply IH|reflexivity].
  - specialize (Hcomm a y x).
    destruct (step a y) as [ay|], (step a x) as [ax|]; simpl in *.
    + destruct (step ay x) as [ayx|], (step ax y) as [axy|];
        try discriminate; [now inversion Hcomm|reflexivity].
    + now rewrite Hcomm.
    + now rewrite <- Hcomm.
    + reflexivity.
  - now rewrite IH, IH'.
Qed.

Lemma scan_ext {A X : Type} (step step' : A -> X -> option A) :
  (forall a x, step a x = step' a x) ->
  forall l a, scan step l a = scan step' l a.
Proof.
  intros H l. induction l as [|x l IH]; intros a; simpl; [reflexivity|].
  rewrite H. destruct (step' a x); [apply IH|reflexivity].
Qed.


(** *** The friendly and the enemy scan as scans with early exit *)

Lemma friendly_step_comm (b : board) (to : coord_t) (cN : Z)
  (a : friendly_locals) (x y : group_t) :
  match friendly_step b to cN a x with
  | Some a' => friendly_step b to cN a' y
  | None => None
  end
  = match friendly_step b to cN a y with
    | Some a' => friendly_step b to cN a' x
    | None => None
    end.
Proof.
  destruct a as [[set e] f]. unfold friendly_step.
  destruct (libs b x =? 1), (libs b y =? 1); try reflexivity;
    destruct (libs b x >? 2), (libs b y >? 2); try reflexivity;
    destruct set; simpl; try reflexivity;
    destruct (cN >? 1); simpl; rewrite ?Tauto.if_same; try reflexivity;
    destruct (cN >? 0); simpl;
    repeat match goal with
    | |- context [?u =? ?v] => destruct (Z.eqb_spec u v); simpl
    | |- context [coord_is_adjecent ?b ?u ?v] =>
        destruct (coord_is_adjecent b u v) eqn:?; simpl
    end; congruence.
Qed.

Lemma enemy_step_comm (b : board) (color : stone) (s : selfatari_state)
  (a : bool) (x y : group_t) :
  match enemy_step b color s a x with
  | Some a' => enemy_step b color s a' y
  | None => None
  end
  = match enemy_step b color s a y with
    | Some a' => enemy_step b color s a' x
    | None => None
    end.
Proof.
  unfold enemy_step.
  destruct (libs b x >? 1), (libs b y >? 1); try reflexivity;
    destruct (groupcts s S_NONE >? 0); simpl; try reflexivity;
    destruct (group_is_onestone b x), (group_is_onestone b y); simpl;
    try reflexivity;
    destruct (ko_stone b color x), (ko_stone b color y),
      (friend_has_no_libs s); simpl; try reflexivity;
    destruct (needs_more_lib s =? 0), a; reflexivity.
Qed.

Section Refinement.

Variable b : board.
Variable color : stone.
Variable to : coord_t.

Lemma friendly_loop_scan (gs : list group_t) : forall s,
  NoDup gs ->
  (forall g, In g gs -> g <> 0) ->
  (needs_more_lib s <> 0 -> ~ In (needs_more_lib s) gs) ->
  (forall g s', In g gs -> libs b g = 3 -> groupids s' = groupids s ->
                three_liberty_suicide b g color to s' = Ok false) ->
  match scan (friendly_step b to (groupcts s S_NONE)) gs (locals_of s) with
  | None => exists s', examine_friendly_loop b color to gs s = Ok (0, s')
  | Some a =>
      exists s', examine_friendly_loop b color to gs s = Ok (-1, s')
                 /\ locals_of s' = a /\ groupids s' = groupids s
  end.
Proof.
  induction gs as [|g gs IH]; intros s Hnd Hnz Hneeds Htls.
  - simpl. exists s. auto.
  - inversion Hnd as [|? ? Hg Hnd']; subst.
    assert (Hg0 : g <> 0) by (apply Hnz; now left).
    cbn [scan examine_friendly_loop].
    unfold friendly_step at 1, locals_of at 1.
    destruct (Z.eqb_spec (libs b g) 1) as [E1|E1].
    { (* in atari *)
      set (s1 := if needs_more_lib s =? 0
                 then set_friend_has_no_libs s true else s).
      assert (Hl : locals_of s1
                   = (negb (needs_more_lib s =? 0), needs_more_lib_except s,
                      if negb (needs_more_lib s =? 0)
                      then friend_has_no_libs s else true)).
      { unfold s1, locals_of.
        destruct (needs_more_lib s =? 0) eqn:E; simpl; rewrite E;
          reflexivity. }
      assert (Hn : needs_more_lib s1 = needs_more_lib s).
      { unfold s1. now destruct (needs_more_lib s =? 0). }
      assert (Hi : groupids s1 = groupids s).
      { unfold s1. now destruct (needs_more_lib s =? 0). }
      rewrite <- Hl.
      replace (groupcts s S_NONE) with (groupcts s1 S_NONE)
        by (unfold groupcts; now rewrite Hi).
      specialize (IH s1 Hnd').
      destruct (scan _ gs (locals_of s1)).
      - destruct IH as (s' & H1 & H2 & H3).
        + intros; apply Hnz; now right.
        + rewrite Hn. intros H Hin. apply (Hneeds H). now right.
        + intros g' s' Hin H3 Hs'. apply Htls; [now right|exact H3|].
          now rewrite Hs'.
        + exists s'. rewrite H3. auto.
      - destruct IH as (s' & H1).
        + intros; apply Hnz; now right.
        + rewrite Hn. intros H Hin. apply (Hneeds H). now right.
        + intros g' s' Hin H3 Hs'. apply Htls; [now right|exact H3|].
          now rewrite Hs'.
        + exists s'. exact H1. }
    destruct (libs b g >? 2) eqn:E2.
    { (* more than two liberties *)
      destruct (Z.eqb_spec (libs b g) 3) as [E3|E3].
      - rewrite (Htls g s (or_introl eq_refl) E3 eq_refl). simpl.
        now exists s.
      - now exists s. }
    (* two liberties *)
    assert (Hclash :
      negb (needs_more_lib s =? 0) && negb (needs_more_lib s =? g)
      && negb (needs_more_lib_except s =? board_group_other_lib b g to)
      = negb (needs_more_lib s =? 0)
        && negb (needs_more_lib_except s =? board_group_other_lib b g to)).
    { destruct (Z.eqb_spec (needs_more_lib s) 0) as [E|E]; [reflexivity|].
      destruct (Z.eqb_spec (needs_more_lib s) g) as [E'|E']; [|reflexivity].
      exfalso. apply (Hneeds E). left. now symmetry. }
    rewrite Hclash. cbv zeta.
    destruct (negb (needs_more_lib s =? 0)
              && negb (needs_more_lib_except s
                       =? board_group_other_lib b g to)).
    { now exists s. }
    destruct (groupcts s S_NONE >? 1) eqn:E4.
    { now exists s. }
    destruct ((groupcts s S_NONE >? 0)
              && negb (coord_is_adjecent b
                         (board_group_other_lib b g to) to)).
    { now exists s. }
    set (s2 := set_needs_more_lib s g (board_group_other_lib b g to)).
    assert (Hl : locals_of s2 = (true, board_group_other_lib b g to, false)).
    { unfold locals_of, s2. simpl.
      destruct (Z.eqb_spec g 0); [contradiction|reflexivity]. }
    rewrite <- Hl.
    change (groupcts s S_NONE) with (groupcts s2 S_NONE).
    specialize (IH s2 Hnd').
    destruct (scan _ gs (locals_of s2)).
    + destruct IH as (s' & H1 & H2 & H3).
      * intros; apply Hnz; now right.
      * intros _. exact Hg.
      * intros g' s' Hin H3 Hs'. apply Htls; [now right|exact H3|exact Hs'].
      * exists s'. auto.
    + destruct IH as (s' & H1).
      * intros; apply Hnz; now right.
      * intros _. exact Hg.
      * intros g' s' Hin H3 Hs'. apply Htls; [now right|exact H3|exact Hs'].
      * exists s'. exact H1.
Qed.

Lemma enemy_loop_scan (s : selfatari_state) (gs : list group_t) :
  forall cc,
  NoDup gs ->
  (forall g, In g gs -> g <> 0) ->
  (cc <> 0 -> ~ In cc gs) ->
  match scan (enemy_step b color s) gs (negb (cc =? 0)) with
  | None => examine_enemy_loop b color s gs cc = Return 0
  | Some a =>
      exists cc', examine_enemy_loop b color s gs cc = Next cc'
                  /\ negb (cc' =? 0) = a
  end.
Proof.
  induction gs as [|g gs IH]; intros cc Hnd Hnz Hcc.
  - simpl. now exists cc.
  - inversion Hnd as [|? ? Hg Hnd']; subst.
    assert (Hg0 : g <> 0) by (apply Hnz; now left).
    cbn [scan examine_enemy_loop]. unfold enemy_step at 1.
    destruct (libs b g >? 1).
    { apply IH; [exact Hnd'|intros; apply Hnz; now right|].
      intros H Hin. apply (Hcc H). now right. }
    destruct ((groupcts s S_NONE >? 0) || negb (group_is_onestone b g));
      [reflexivity|].
    destruct (ko_stone b color g && negb (friend_has_no_libs s));
      [reflexivity|].
    assert (Hsame : negb (cc =? 0) && negb (cc =? g) = negb (cc =? 0)).
    { destruct (Z.eqb_spec cc 0) as [E|E]; [reflexivity|].
      destruct (Z.eqb_spec cc g) as [E'|E']; [|reflexivity].
      exfalso. apply (Hcc E). left. now symmetry. }
    rewrite Hsame.
    destruct (negb (needs_more_lib s =? 0) || negb (cc =? 0));
      [reflexivity|].
    replace true with (negb (g =? 0))
      by (destruct (Z.eqb_spec g 0); [contradiction|reflexivity]).
    apply IH; [exact Hnd'|intros; apply Hnz; now right|].
    intros _. exact Hg.
Qed.

End Refinement.

Lemma collect_locals (b : board) (l : list coord_t) : forall s,
  locals_of (fold_left (collect_neighbor b) l s) = locals_of s.
Proof.
  induction l as [|c l IH]; intros s; simpl; [reflexivity|].
  rewrite IH. unfold collect_neighbor. now destruct (existsb _ _).
Qed.

Lemma group_ok_inv (b : board) (to : coord_t) (g : group_t) :
  group_ok b to g = true ->
  g <> 0
  /\ (libs b g <= 3 ->
      In to (lib_list b g) /\ liberties_ok b to g = true).
Proof.
  unfold group_ok. intros H. apply andb_prop in H. destruct H as [H0 H].
  split.
  - intros ->. discriminate.
  - intros Hl. apply Z.leb_le in Hl. rewrite Hl in H. simpl in H.
    apply andb_prop in H. destruct H as [H1 H2].
    split; [now apply existsb_eqb_In|exact H2].
Qed.

(** With accurate liberties, [to] among them, the extracting loop fills
    both slots. *)
Lemma other_libs_ok (b : board) (g : group_t) (to : coord_t) :
  libs b g = 3 ->
  In to (lib_list b g) ->
  liberties_ok b to g = true ->
  exists l0 a0 l1 a1, other_libs b g to = Ok [(l0, a0); (l1, a1)].
Proof.
  intros H3 Hin Hok.
  pose proof (liberties_ok_inv b g to H3 Hok) as Hd.
  destruct (Hd 0 1 ltac:(lia))%nat as [H01 _].
  destruct (Hd 0 2 ltac:(lia))%nat as [H02 _].
  destruct (Hd 1 2 ltac:(lia))%nat as [H12 _].
  rewrite (lib_list_three b g H3) in Hin. simpl in Hin.
  unfold other_libs. simpl.
  destruct (Z.eqb_spec (lib b g 0) to), (Z.eqb_spec (lib b g 1) to),
    (Z.eqb_spec (lib b g 2) to); simpl;
    try (exfalso; intuition congruence);
    repeat eexists.
Qed.

(** With no friendly group every enemy group is looked at. *)
Lemma nakade_loop_no_friend (b : board) (color : stone) (to : coord_t)
  (s : selfatari_state) (gs : list group_t) :
  groupcts s color = 0 ->
  nakade_loop b color to s gs
  = Ok (if existsb
             (fun g => (libs b g =? 2)
                       && forallb (internal_neighbor b color to g)
                            (neighbors b (board_group_other_lib b g to)))
             gs
        then 0 else -1).
Proof.
  intros Hc. induction gs as [|g gs IH]; simpl; [reflexivity|].
  unfold nakade_group. rewrite Hc. simpl.
  destruct (libs b g =? 2); simpl; [|exact IH].
  destruct (forallb _ _); simpl; [reflexivity|exact IH].
Qed.

Lemma friendly_loop_verdicts (b : board) (color : stone) (to : coord_t)
  (gs : list group_t) : forall s d s',
  examine_friendly_loop b color to gs s = Ok (d, s') ->
  d = -1 \/ d = 0 \/ d = 1.
Proof.
  induction gs as [|g gs IH]; simpl; intros s d s' H.
  - inversion H. tauto.
  - destruct (libs b g =? 1); [eapply IH; eauto|].
    destruct (libs b g >? 2).
    { destruct (libs b g =? 3).
      - destruct (three_liberty_suicide b g color to s) as [[|]|];
          simpl in H; inversion H; tauto.
      - inversion H; tauto. }
    repeat match type of H with
    | (if ?c then _ else _) = _ => destruct c; [inversion H; tauto|]
    end.
    eapply IH; eauto.
Qed.

Section Order.

Variable b : board.
Variable nb : coord_t -> list coord_t.
Variable color : stone.
Variable to : coord_t.

Hypothesis Hcolor : is_stone color = true.
Hypothesis Hok : around_ok b to = true.
Hypothesis Hperm : forall c, Permutation (neighbors b c) (nb c).

Local Abbreviation b' := (with_neighbors b nb).
Local Abbreviation s0 := (collect_groups b to).
Local Abbreviation s0' := (collect_groups (with_neighbors b nb) to).

Lemma collect_order (col : stone) :
  Permutation (groupids s0' col) (groupids s0 col).
Proof.
  destruct (collect_groups_spec b to) as (Hnd & Hin & _).
  destruct (collect_groups_spec b' to) as (Hnd' & Hin' & _).
  apply NoDup_Permutation; [apply Hnd'|apply Hnd|].
  intros g. rewrite Hin, Hin'. simpl.
  split; intros (c & Hc & H); exists c; (split; [|exact H]).
  - eapply Permutation_in; [apply Permutation_sym, Hperm|exact Hc].
  - eapply Permutation_in; [apply Hperm|exact Hc].
Qed.

Lemma collect_count (col : stone) : groupcts s0' col = groupcts s0 col.
Proof.
  unfold groupcts. now rewrite (Permutation_length (collect_order col)).
Qed.

Lemma bucket_group_ok (col : stone) (g : group_t) :
  is_stone col = true -> In g (groupids s0 col) -> group_ok b to g = true.
Proof.
  intros Hcol Hin.
  destruct (collect_groups_spec b to) as (_ & Hspec & _).
  apply Hspec in Hin. destruct Hin as (c & Hc & Hbc & Hg).
  unfold around_ok in Hok. apply andb_prop in Hok. destruct Hok as [_ H].
  rewrite forallb_forall in H. specialize (H c Hc).
  rewrite Hbc, Hcol, Hg in H. exact H.
Qed.

Lemma count_ok : empty_count_ok b to = true.
Proof. unfold around_ok in Hok. apply andb_prop in Hok. tauto. Qed.

(** Next to a second friendly group the three-liberty check answers
    false. *)
Lemma three_liberty_two_friends (g : group_t) (s : selfatari_state) :
  groupcts s color > 1 ->
  group_ok b to g = true ->
  libs b g = 3 ->
  three_liberty_suicide b g color to s = Ok false.
Proof.
  intros Hc Hg H3.
  destruct (group_ok_inv b to g Hg) as [_ H]. destruct H as [Hin Hl]; [lia|].
  destruct (other_libs_ok b g to H3 Hin Hl) as (l0 & a0 & l1 & a1 & Hol).
  rewrite (three_liberty_suicide_full _ _ _ _ _ _ _ _ _ Hol).
  destruct (_ >? 0) eqn:G; [reflexivity|].
  rewrite (guard_excludes_both_adjacent b g to H3 l0 l1 a0 a1
             count_ok Hl Hol G). simpl.
  replace (groupcts s color >? 1) with true; [reflexivity|].
  symmetry. rewrite Z.gtb_ltb. apply Z.ltb_lt. lia.
Qed.

Lemma final_test_order (g : group_t) (n : bool) (li lo : coord_t)
  (a : bool) :
  final_test b' g color n li lo a = final_test b g color n li lo a.
Proof.
  unfold final_test. simpl.
  now rewrite (existsb_perm (can_connect b g color) (Hperm li)).
Qed.

Lemma three_liberty_order (g : group_t) (s s' : selfatari_state) :
  groupcts s' color = groupcts s color ->
  Permutation (groupids s' (stone_other color))
              (groupids s (stone_other color)) ->
  three_liberty_suicide b' g color to s'
  = three_liberty_suicide b g color to s.
Proof.
  intros Hc Hp. unfold three_liberty_suicide.
  change (other_libs b' g to) with (other_libs b g to).
  destruct (other_libs b g to) as [ol|f]; simpl; [|reflexivity].
  destruct (other_lib_adj ol 0) as [adj0|f]; simpl; [|reflexivity].
  destruct (if adj0 then Ok true else other_lib_adj ol 1) as [any_adj|f];
    simpl; [|reflexivity].
  destruct (_ >? 0); [reflexivity|].
  destruct (if adj0 then other_lib_adj ol 1 else Ok false) as [both_adj|f];
    simpl; [|reflexivity].
  destruct (assert (negb both_adj)) as [[]|f]; simpl; [|reflexivity].
  rewrite Hc, (existsb_perm (fun g' => libs b g' <=? 2) Hp).
  destruct (_ >? 1); [reflexivity|].
  destruct (existsb _ _); [reflexivity|].
  destruct (other_lib ol 0) as [l0|f]; simpl; [|reflexivity].
  destruct (other_lib ol 1) as [l1|f]; simpl; [|reflexivity].
  destruct (other_lib_adj ol 1) as [adj1|f]; simpl; [|reflexivity].
  now rewrite !final_test_order.
Qed.

Lemma friendly_loop_order_one (g : group_t) :
  same_outcome (examine_friendly_loop b' color to [g] s0')
               (examine_friendly_loop b color to [g] s0).
Proof.
  pose proof (collect_locals b' (nb to) state0) as Hl'.
  pose proof (collect_locals b (neighbors b to) state0) as Hl.
  fold (collect_groups b to) in Hl.
  change (fold_left (collect_neighbor b') (nb to) state0) with s0' in Hl'.
  unfold locals_of in Hl, Hl'.
  injection Hl as Hn He Hf. injection Hl' as Hn' He' Hf'.
  apply negb_false_iff in Hn, Hn'.
  assert (Hsim : forall t t',
            groupids t' = groupids s0' -> groupids t = groupids s0 ->
            friend_has_no_libs t' = friend_has_no_libs t ->
            (needs_more_lib t' =? 0) = (needs_more_lib t =? 0) ->
            similar t' t).
  { intros t t' Hi' Hi H1 H2. split; [|split; assumption].
    intros col. rewrite Hi', Hi. apply collect_order. }
  cbn [examine_friendly_loop]. simpl libs.
  rewrite Hn, Hn'.
  destruct (libs b g =? 1).
  { simpl. split; [reflexivity|]. intros _.
    apply Hsim; simpl; rewrite ?Hn, ?Hn'; reflexivity. }
  destruct (libs b g >? 2).
  { destruct (libs b g =? 3); [|simpl; split; [reflexivity|discriminate]].
    rewrite (three_liberty_order g s0 s0'
               (collect_count color) (collect_order _)).
    destruct (three_liberty_suicide b g color to s0) as [[|]|]; simpl;
      try reflexivity; split; try reflexivity; discriminate. }
  simpl. rewrite collect_count.
  destruct (groupcts s0 S_NONE >? 1);
    [simpl; split; [reflexivity|discriminate]|].
  destruct ((groupcts s0 S_NONE >? 0) && _);
    [simpl; split; [reflexivity|discriminate]|].
  simpl. split; [reflexivity|]. intros _.
  apply Hsim; simpl; rewrite ?Hn, ?Hn'; reflexivity.
Qed.

(** The friendly scan comes to the same verdict in either order. *)
Lemma friendly_order :
  same_outcome (examine_friendly_groups b' color to s0')
               (examine_friendly_groups b color to s0).
Proof.
  unfold examine_friendly_groups.
  pose proof (collect_order color) as Hp.
  destruct (groupids s0 color) as [|g1 [|g2 gs]] eqn:E.
  - apply Permutation_sym, Permutation_nil in Hp. rewrite Hp. simpl.
    split; [reflexivity|].
    intros _. split; [apply collect_order|].
    pose proof (collect_locals b' (nb to) state0) as Hl'.
    pose proof (collect_locals b (neighbors b to) state0) as Hl.
    fold (collect_groups b to) in Hl.
    change (fold_left (collect_neighbor b') (nb to) state0) with s0' in Hl'.
    unfold locals_of in Hl, Hl'.
    injection Hl as Hn He Hf. injection Hl' as Hn' He' Hf'.
    apply negb_false_iff in Hn, Hn'. now rewrite Hn, Hn', Hf, Hf'.
  - apply Permutation_sym, Permutation_length_1_inv in Hp. rewrite Hp.
    apply friendly_loop_order_one.
  - (* two friendly groups or more *)
    destruct (collect_groups_spec b to) as (Hnd & _).
    destruct (collect_groups_spec b' to) as (Hnd' & _).
    assert (Hlen : groupcts s0 color > 1).
    { unfold groupcts. rewrite E. simpl. lia. }
    assert (Hgok : forall g, In g (groupids s0 color) ->
                             group_ok b to g = true).
    { intros g. now apply bucket_group_ok. }
    assert (Hgok' : forall g, In g (groupids s0' color) ->
                              group_ok b to g = true).
    { intros g Hg. apply Hgok.
      eapply Permutation_in; [apply collect_order|exact Hg]. }
    pose proof (collect_locals b (neighbors b to) state0) as Hl.
    fold (collect_groups b to) in Hl.
    pose proof (collect_locals b' (nb to) state0) as Hl'.
    change (fold_left (collect_neighbor b') (nb to) state0) with s0' in Hl'.
    assert (Hn : needs_more_lib s0 = 0).
    { unfold locals_of in Hl. injection Hl as Hn _ _.
      apply negb_false_iff in Hn. now apply Z.eqb_eq. }
    assert (Hn' : needs_more_lib s0' = 0).
    { unfold locals_of in Hl'. injection Hl' as Hn' _ _.
      apply negb_false_iff in Hn'. now apply Z.eqb_eq. }
    pose proof (friendly_loop_scan b color to (groupids s0 color) s0
                  (Hnd color)) as R.
    pose proof (friendly_loop_scan b' color to (groupids s0' color) s0'
                  (Hnd' color)) as R'.
    assert (Hscan :
      scan (friendly_step b' to (groupcts s0' S_NONE)) (groupids s0' color)
           (locals_of s0')
      = scan (friendly_step b to (groupcts s0 S_NONE)) (groupids s0 color)
             (locals_of s0)).
    { rewrite collect_count, Hl, Hl'.
      change (friendly_step b' to) with (friendly_step b to).
      apply scan_perm; [apply friendly_step_comm|exact (collect_order _)]. }
    rewrite Hscan in R'. rewrite <- E.
    destruct (scan _ (groupids s0 color) (locals_of s0)) as [a|].
    + destruct R as (s1 & R1 & R2 & R3).
      * intros g Hg. now apply (group_ok_inv b to g), Hgok.
      * intros H. now rewrite Hn in H.
      * intros g s' Hg H3 Hs'. apply three_liberty_two_friends; auto.
        unfold groupcts in *. now rewrite Hs'.
      * destruct R' as (s1' & R1' & R2' & R3').
        -- intros g Hg. now apply (group_ok_inv b to g), Hgok'.
        -- intros H. now rewrite Hn' in H.
        -- intros g s' Hg H3 Hs'.
           rewrite (three_liberty_order g s0 s').
           ++ apply three_liberty_two_friends; auto.
           ++ unfold groupcts. rewrite Hs'. apply collect_count.
           ++ rewrite Hs'. apply collect_order.
        -- rewrite R1, R1'. simpl. split; [reflexivity|]. intros _.
           unfold locals_of in R2, R2'. rewrite <- R2 in R2'.
           injection R2' as Ha Hb Hc.
           split; [|split].
           ++ intros col. rewrite R3, R3'. apply collect_order.
           ++ exact Hc.
           ++ revert Ha.
              destruct (needs_more_lib s1' =? 0),
                (needs_more_lib s1 =? 0); simpl; congruence.
    + destruct R as (s1 & R1).
      * intros g Hg. now apply (group_ok_inv b to g), Hgok.
      * intros H. now rewrite Hn in H.
      * intros g s' Hg H3 Hs'. apply three_liberty_two_friends; auto.
        unfold groupcts in *. now rewrite Hs'.
      * destruct R' as (s1' & R1').
        -- intros g Hg. now apply (group_ok_inv b to g), Hgok'.
        -- intros H. now rewrite Hn' in H.
        -- intros g s' Hg H3 Hs'.
           rewrite (three_liberty_order g s0 s').
           ++ apply three_liberty_two_friends; auto.
           ++ unfold groupcts. rewrite Hs'. apply collect_count.
           ++ rewrite Hs'. apply collect_order.
        -- rewrite R1, R1'. simpl. split; [reflexivity|discriminate].
Qed.

Lemma other_is_stone : is_stone (stone_other color) = true.
Proof. destruct color; simpl in *; congruence. Qed.

(** The enemy scan comes to the same verdict in either order. *)
Lemma enemy_order (s s' : selfatari_state) :
  similar s' s ->
  groupids s = groupids s0 ->
  examine_enemy_groups b' color to s' = examine_enemy_groups b color to s.
Proof.
  intros (Hp & Hf & Hn) Hs.
  destruct (collect_groups_spec b to) as (Hnd & _).
  set (gs := groupids s (stone_other color)).
  set (gs' := groupids s' (stone_other color)).
  assert (Hpe : Permutation gs' gs) by apply Hp.
  assert (Hndg : NoDup gs) by (unfold gs; rewrite Hs; apply Hnd).
  assert (Hndg' : NoDup gs').
  { eapply Permutation_NoDup; [apply Permutation_sym, Hpe|exact Hndg]. }
  assert (Hnz : forall g, In g gs -> g <> 0).
  { intros g Hg. unfold gs in Hg. rewrite Hs in Hg.
    apply (group_ok_inv b to g).
    now apply (bucket_group_ok (stone_other color) g other_is_stone). }
  assert (Hnz' : forall g, In g gs' -> g <> 0).
  { intros g Hg. apply Hnz. eapply Permutation_in; eauto. }
  assert (Hc : groupcts s' S_NONE = groupcts s S_NONE).
  { unfold groupcts. now rewrite (Permutation_length (Hp S_NONE)). }
  assert (Hscan : scan (enemy_step b' color s') gs' (negb (0 =? 0))
                  = scan (enemy_step b color s) gs (negb (0 =? 0))).
  { rewrite (scan_perm (enemy_step b' color s')
               (enemy_step_comm b' color s') gs' gs Hpe).
    apply scan_ext. intros a x. unfold enemy_step. simpl.
    now rewrite Hc, Hf, Hn. }
  pose proof (enemy_loop_scan b color s gs 0 Hndg Hnz
                ltac:(intros H; now contradiction H)) as R.
  pose proof (enemy_loop_scan b' color s' gs' 0 Hndg' Hnz'
                ltac:(intros H; now contradiction H)) as R'.
  rewrite Hscan in R'.
  unfold examine_enemy_groups. fold gs gs'.
  destruct (scan (enemy_step b color s) gs (negb (0 =? 0))) as [a|].
  - destruct R as (cc & R & Ha), R' as (cc' & R' & Ha').
    rewrite R, R', Hc, Hn.
    replace (cc' =? 0) with (cc =? 0); [reflexivity|].
    rewrite <- Ha in Ha'.
    destruct (cc' =? 0), (cc =? 0); simpl in Ha'; congruence.
  - now rewrite R, R'.
Qed.

(** The friendly groups after a friendly scan without verdict. *)
Lemma friend_facts (s : selfatari_state) (g2 : group_t) :
  groupids s = groupids s0 ->
  (forall g, In g (groupids s color) -> libs b g <= 2) ->
  In g2 (groupids s color) ->
  libs b g2 <= 2 /\ (libs b g2 <> 2 -> lib b g2 0 = to).
Proof.
  intros Hs Hle Hin. split; [now apply Hle|]. intros H2.
  specialize (Hle g2 Hin). rewrite Hs in Hin.
  pose proof (bucket_group_ok color g2 Hcolor Hin) as Hg.
  destruct (group_ok_inv b to g2 Hg) as [_ H].
  destruct H as [Hto _]; [lia|].
  unfold lib_list in Hto.
  assert (Hc : libs b g2 <= 0 \/ libs b g2 = 1) by lia.
  destruct Hc as [Hc|Hc].
  - replace (Z.to_nat (libs b g2)) with 0%nat in Hto by lia.
    now simpl in Hto.
  - rewrite Hc in Hto. simpl in Hto. intuition congruence.
Qed.

Lemma nakade_friends_closed (lib2 : coord_t) (gs : list group_t) :
  (forall g2, In g2 gs ->
              libs b g2 <= 2 /\ (libs b g2 <> 2 -> lib b g2 0 = to)) ->
  nakade_friends b to lib2 gs
  = Ok (if forallb (fun g2 => negb (libs b g2 =? 2)
                              || (lib b g2 0 =? lib2)
                              || (lib b g2 1 =? lib2)) gs
        then Some 0 else None).
Proof.
  induction gs as [|g2 gs IH]; intros H; simpl; [reflexivity|].
  destruct (H g2 (or_introl eq_refl)) as [Hle Hto].
  replace (libs b g2 <=? 2) with true by (symmetry; now apply Z.leb_le).
  simpl.
  destruct (Z.eqb_spec (libs b g2) 2) as [E|E]; simpl.
  - destruct (lib b g2 0 =? lib2), (lib b g2 1 =? lib2); simpl;
      try reflexivity; apply IH; intros; apply H; now right.
  - rewrite (Hto E), Z.eqb_refl. simpl.
    apply IH; intros; apply H; now right.
Qed.

Lemma nakade_friends_board (lib2 : coord_t) (gs : list group_t) :
  nakade_friends b' to lib2 gs = nakade_friends b to lib2 gs.
Proof.
  induction gs as [|g2 gs IH]; simpl; [reflexivity|]. now rewrite IH.
Qed.

Lemma nakade_group_order (s s' : selfatari_state) (g : group_t) :
  similar s' s ->
  groupids s = groupids s0 ->
  (forall g2, In g2 (groupids s color) -> libs b g2 <= 2) ->
  nakade_group b' color to s' g = nakade_group b color to s g.
Proof.
  intros (Hp & _) Hs Hle.
  assert (Hc : groupcts s' color = groupcts s color).
  { unfold groupcts. now rewrite (Permutation_length (Hp color)). }
  unfold nakade_group. simpl libs. simpl board_group_other_lib.
  destruct (negb (libs b g =? 2)); [reflexivity|].
  set (lib2 := board_group_other_lib b g to).
  change (neighbors b' lib2) with (nb lib2).
  rewrite <- (forallb_perm (internal_neighbor b' color to g) (Hperm lib2)).
  change (internal_neighbor b' color to g)
    with (internal_neighbor b color to g).
  destruct (negb (forallb _ _)); [reflexivity|].
  rewrite Hc.
  destruct (groupcts s color <? 1); [reflexivity|].
  assert (Hfr : forall t, Permutation t (groupids s color) ->
    nakade_friends b' to lib2 t
    = Ok (if forallb (fun g2 => negb (libs b g2 =? 2)
                                || (lib b g2 0 =? lib2)
                                || (lib b g2 1 =? lib2)) (groupids s color)
          then Some 0 else None)).
  { intros t Ht.
    rewrite nakade_friends_board, nakade_friends_closed.
    - now rewrite (forallb_perm _ Ht).
    - intros g2 Hg2. apply (friend_facts s g2 Hs Hle).
      eapply Permutation_in; eauto. }
  destruct (Z.eqb_spec (groupcts s color) 1) as [E|E]; simpl.
  - assert (Heq : groupids s' color = groupids s color).
    { apply perm_singleton_bucket; [apply Permutation_sym, Hp|].
      unfold groupcts in E. lia. }
    rewrite Heq. simpl group_is_onestone.
    destruct (group_is_onestone b _); [reflexivity|].
    rewrite (Hfr _ (Permutation_refl _)).
    rewrite <- nakade_friends_board.
    now rewrite (Hfr _ (Permutation_refl _)).
  - rewrite (Hfr _ (Hp color)).
    rewrite <- nakade_friends_board.
    now rewrite (Hfr _ (Permutation_refl _)).
Qed.


(** The nakade scan comes to the same verdict in either order when the
    point has no friendly neighbouring group or at most one enemy
    neighbouring group. *)
Lemma nakade_order (s s' : selfatari_state) :
  similar s' s ->
  groupids s = groupids s0 ->
  (forall g2, In g2 (groupids s color) -> libs b g2 <= 2) ->
  groupcts s0 color = 0 \/ groupcts s0 (stone_other color) <= 1 ->
  setup_nakade_or_snapback b' color to s'
  = setup_nakade_or_snapback b color to s.
Proof.
  intros Hsim Hs Hle H. pose proof Hsim as (Hp & _).
  assert (Hc : groupcts s' color = groupcts s color).
  { unfold groupcts. now rewrite (Permutation_length (Hp color)). }
  unfold setup_nakade_or_snapback.
  destruct H as [H|H].
  - (* no friendly group *)
    assert (H0 : groupcts s color = 0).
    { unfold groupcts in *. now rewrite Hs. }
    rewrite !nakade_loop_no_friend by congruence.
    rewrite (existsb_perm _ (Hp (stone_other color))).
    rewrite (existsb_ext _
               (fun g => (libs b g =? 2)
                         && forallb (internal_neighbor b color to g)
                              (neighbors b (board_group_other_lib b g to))));
      [reflexivity|].
    intros g. simpl. f_equal.
    symmetry. apply (forallb_perm (internal_neighbor b color to g)).
    apply Hperm.
  - (* at most one enemy group *)
    assert (Heq : groupids s' (stone_other color)
                  = groupids s (stone_other color)).
    { apply perm_singleton_bucket; [apply Permutation_sym, Hp|].
      unfold groupcts in H. rewrite Hs. lia. }
    rewrite Heq. clear Heq H.
    induction (groupids s (stone_other color)) as [|g gs IH]; simpl;
      [reflexivity|].
    rewrite (nakade_group_order s s' g Hsim Hs Hle), Hc, IH.
    reflexivity.
Qed.

(** The throw-in check comes to the same verdict in either order. *)
Lemma throwin_order (s s' : selfatari_state) :
  similar s' s ->
  check_throwin b' color to s' = check_throwin b color to s.
Proof.
  intros (Hp & _).
  assert (Hc : groupcts s' color = groupcts s color).
  { unfold groupcts. now rewrite (Permutation_length (Hp color)). }
  unfold check_throwin.
  change (throwin_applies b' color to) with (throwin_applies b color to).
  destruct (throwin_applies b color to); [|reflexivity].
  rewrite Hc.
  destruct (assert (groupcts s color <=? 1)) as [[]|]; simpl; [|reflexivity].
  destruct (groupcts s color =? 0).
  - change (escape_path b' color) with (escape_path b color).
    now rewrite <- (existsb_perm (escape_path b color) (Hperm to)).
  - destruct (Z.eqb_spec (groupcts s color) 1) as [E|E]; simpl;
      [|reflexivity].
    assert (Heq : groupids s' color = groupids s color).
    { apply perm_singleton_bucket; [apply Permutation_sym, Hp|].
      unfold groupcts in E. lia. }
    now rewrite Heq.
Qed.

Lemma after_friendly_order (d : Z) (s s' : selfatari_state) :
  (d = -1 -> similar s' s) ->
  groupids s = groupids s0 ->
  (d = -1 -> forall g2, In g2 (groupids s color) -> libs b g2 <= 2) ->
  d = -1 \/ d = 0 \/ d = 1 ->
  groupcts s0 color = 0 \/ groupcts s0 (stone_other color) <= 1 ->
  after_friendly_scan b' color to (d, s')
  = after_friendly_scan b color to (d, s).
Proof.
  intros Hsim Hs Hle Hd H. unfold after_friendly_scan.
  destruct Hd as [->|[->| ->]]; [|reflexivity|reflexivity].
  specialize (Hsim eq_refl). specialize (Hle eq_refl).
  simpl.
  rewrite (enemy_order s s' Hsim Hs).
  destruct (examine_enemy_groups b color to s >=? 0); [reflexivity|].
  rewrite (nakade_order s s' Hsim Hs Hle H).
  destruct (setup_nakade_or_snapback b color to s) as [dn|f]; simpl;
    [|reflexivity].
  destruct (dn >=? 0); [reflexivity|].
  now rewrite (throwin_order s s' Hsim).
Qed.

Lemma slow_order :
  groupcts s0 color = 0 \/ groupcts s0 (stone_other color) <= 1 ->
  is_bad_selfatari_slow b' color to = is_bad_selfatari_slow b color to.
Proof.
  intros H.
  change (is_bad_selfatari_slow b' color to)
    with (_ <- assert (groupcts s0' S_NONE <=? 1) ;;
          ds <- examine_friendly_groups b' color to s0' ;;
          after_friendly_scan b' color to ds).
  change (is_bad_selfatari_slow b color to)
    with (_ <- assert (groupcts s0 S_NONE <=? 1) ;;
          ds <- examine_friendly_groups b color to s0 ;;
          after_friendly_scan b color to ds).
  rewrite collect_count.
  destruct (assert (groupcts s0 S_NONE <=? 1)) as [[]|]; simpl;
    [|reflexivity].
  pose proof friendly_order as Hfr.
  destruct (examine_friendly_groups b' color to s0') as [[d' s1']|f'] eqn:E';
    destruct (examine_friendly_groups b color to s0) as [[d s1]|f] eqn:E;
    simpl in Hfr; try contradiction; simpl; [|congruence].
  destruct Hfr as [-> Hsim].
  unfold examine_friendly_groups in E, E'.
  apply after_friendly_order; auto.
  - eapply friendly_loop_groupids; eauto.
  - intros -> g2 Hg2.
    apply (friendly_inconclusive_libs b color to _ _ _ E).
    now rewrite <- (friendly_loop_groupids _ _ _ _ _ _ _ E).
  - eapply friendly_loop_verdicts; eauto.
Qed.

End Order.

(** C9, as far as the code goes: on a board that keeps its liberty
    arrays and counts accurate around the candidate point, the verdict of
    isBadSelfAtari is a function of the board and is the same for any two
    orders of visiting the neighbours (in the collector and in every
    analyzer), provided the candidate point has no friendly neighbouring
    group or at most one enemy neighbouring group. *)
Theorem C9_order_of_neighbours (b : board) (nb : coord_t -> list coord_t)
  (color : stone) (to : coord_t) :
  is_stone color = true ->
  around_ok b to = true ->
  (forall c, Permutation (neighbors b c) (nb c)) ->
  groupcts (collect_groups b to) color = 0
  \/ groupcts (collect_groups b to) (stone_other color) <= 1 ->
  is_bad_selfatari_slow (with_neighbors b nb) color to
  = is_bad_selfatari_slow b color to.
Proof.
  intros Hcolor Hok Hperm H. now apply slow_order.
Qed.

Lemma C9_witness :
  is_bad_selfatari_slow
    (with_neighbors Positions.ring_board
       (fun c => rev (neighbors Positions.ring_board c))) S_BLACK 50
  = is_bad_selfatari_slow Positions.ring_board S_BLACK 50
  /\ is_bad_selfatari_slow
       (with_neighbors Positions.throwin_board
          (fun c => rev (neighbors Positions.throwin_board c))) S_BLACK 37
     = is_bad_selfatari_slow Positions.throwin_board S_BLACK 37.
Proof.
  split.
  - apply (C9_order_of_neighbours Positions.ring_board
             (fun c => rev (neighbors Positions.ring_board c)) S_BLACK 50).
    + reflexivity.
    + vm_compute; reflexivity.
    + intros c. apply Permutation_rev.
    + right. vm_compute; discriminate.
  - apply (C9_order_of_neighbours Positions.throwin_board
             (fun c => rev (neighbors Positions.throwin_board c))
             S_BLACK 37).
    + reflexivity.
    + vm_compute; reflexivity.
    + intros c. apply Permutation_rev.
    + left. vm_compute; reflexivity.
Defined.

(** C9 as stated fails: at (1,5) of [nakade_pos], with the black group 55
    and the white groups 37 and 47 next to the point, the verdict is "bad"
    when the neighbours are visited up, left, right, down (the white stone
    37 comes first and the scan stops) and "not bad" when they are visited
    in the reverse order (the nakade of the white group 47 is found). *)
Lemma C9_counterexample :
  let b := Positions.nakade_board in
  let b' := Positions.nakade_board_rev in
  around_ok b 46 = true
  /\ neighbors b 46 = [37; 45; 47; 55]
  /\ neighbors b' 46 = [55; 47; 45; 37]
  /\ (forall c, Permutation (neighbors b c) (neighbors b' c))
  /\ groupids (collect_groups b 46) S_BLACK = [55]
  /\ groupids (collect_groups b 46) S_WHITE = [37; 47]
  /\ is_bad_selfatari_slow b S_BLACK 46 = Ok true
  /\ is_bad_selfatari_slow b' S_BLACK 46 = Ok false.
Proof.
  conjuncts; try run.
  intros c. apply Permutation_rev.
Qed.

(** * Further properties of the analyzers *)

(** ** The collector *)

Lemma collect_entries (b : board) (l : list coord_t) : forall s,
  (bucket_entries (fold_left (collect_neighbor b) l s)
   <= bucket_entries s + length l)%nat.
Proof.
  induction l as [|c l IH]; intros s; simpl; [lia|].
  specialize (IH (collect_neighbor b s c)).
  assert (H : (bucket_entries (collect_neighbor b s c)
               <= bucket_entries s + 1)%nat).
  { unfold collect_neighbor. destruct (existsb _ _); [lia|].
    unfold bucket_entries, push_group. simpl.
    destruct (board_at b c); simpl; rewrite length_app; simpl; lia. }
  lia.
Qed.

(** The buckets filled by the collecting loop hold no group twice, hold
    for each colour exactly the groups found at the neighbours of that
    colour, and together hold at most one entry per neighbour visited (so
    the four slots of a bucket are enough for four neighbours); the other
    fields of the state are still zero. *)
Theorem collector_buckets (b : board) (to : coord_t) :
  (forall col, NoDup (groupids (collect_groups b to) col))
  /\ (forall col g,
        In g (groupids (collect_groups b to) col) <->
        exists c, In c (neighbors b to)
                  /\ board_at b c = col /\ group_at b c = g)
  /\ (bucket_entries (collect_groups b to) <= length (neighbors b to))%nat
  /\ locals_of (collect_groups b to) = (false, 0, false).
Proof.
  destruct (collect_groups_spec b to) as (H1 & H2 & _).
  split; [exact H1|]. split; [exact H2|]. split.
  - apply (collect_entries b (neighbors b to) state0).
  - apply (collect_locals b (neighbors b to) state0).
Qed.

(** ** The friendly scan *)

Lemma friendly_loop_flags (b : board) (color : stone) (to : coord_t)
  (gs : list group_t) : forall s d s',
  examine_friendly_loop b color to gs s = Ok (d, s') ->
  (friend_has_no_libs s = true -> needs_more_lib s = 0) ->
  friend_has_no_libs s' = true -> needs_more_lib s' = 0.
Proof.
  induction gs as [|g gs IH]; simpl; intros s d s' H Hs.
  - inversion H; subst. exact Hs.
  - destruct (libs b g =? 1).
    { eapply IH; [exact H|].
      destruct (Z.eqb_spec (needs_more_lib s) 0) as [E|E]; simpl; auto. }
    destruct (libs b g >? 2).
    { destruct (libs b g =? 3).
      - destruct (three_liberty_suicide b g color to s); simpl in H;
          inversion H; subst; exact Hs.
      - inversion H; subst; exact Hs. }
    repeat match type of H with
    | (if ?c then _ else _) = _ =>
        destruct c; [inversion H; subst; exact Hs|]
    end.
    eapply IH; [exact H|]. simpl. discriminate.
Qed.

(** Whatever the friendly scan returns, it returns -1, 0 or 1 and leaves
    the buckets as they were; friend_has_no_libs is never left set together
    with needs_more_lib; and a scan without verdict has met no group with
    more than two liberties. *)
Theorem friendly_scan_outcome (b : board) (color : stone) (to : coord_t)
  (s s' : selfatari_state) (d : Z) :
  examine_friendly_groups b color to s = Ok (d, s') ->
  groupids s' = groupids s
  /\ (d = -1 \/ d = 0 \/ d = 1)
  /\ ((friend_has_no_libs s = true -> needs_more_lib s = 0) ->
      friend_has_no_libs s' = true -> needs_more_lib s' = 0)
  /\ (d = -1 -> forall g, In g (groupids s color) -> libs b g <= 2).
Proof.
  unfold examine_friendly_groups. intros H. split; [|split; [|split]].
  - eapply friendly_loop_groupids; eauto.
  - eapply friendly_loop_verdicts; eauto.
  - eapply friendly_loop_flags; eauto.
  - intros ->. eapply friendly_inconclusive_libs; eauto.
Qed.

Lemma friendly_scan_outcome_witness :
  groupids (set_needs_more_lib (collect_groups Positions.false_eye_board 67)
              66 65)
  = groupids (collect_groups Positions.false_eye_board 67)
  /\ libs Positions.false_eye_board 66 <= 2.
Proof.
  destruct (friendly_scan_outcome Positions.false_eye_board S_BLACK 67
              (collect_groups Positions.false_eye_board 67)
              (set_needs_more_lib (collect_groups Positions.false_eye_board 67)
                 66 65) (-1)) as (H1 & _ & _ & H4).
  - vm_compute; reflexivity.
  - split; [exact H1|]. apply (H4 eq_refl). vm_compute. tauto.
Defined.

Lemma three_liberty_true_inv (b : board) (g : group_t) (color : stone)
  (to : coord_t) (s : selfatari_state) :
  three_liberty_suicide b g color to s = Ok true ->
  immediate_liberty_count b to <= 1
  /\ groupcts s color <= 1
  /\ forall g', In g' (groupids s (stone_other color)) -> libs b g' > 2.
Proof.
  destruct (other_libs_shape b g to)
    as [Hol|[(ol & Hol & Hlen)|(l0 & a0 & l1 & a1 & Hol)]].
  { unfold three_liberty_suicide. rewrite Hol. discriminate. }
  { destruct (three_liberty_suicide_short b g color to s ol Hol Hlen)
      as [E|E]; rewrite E; discriminate. }
  rewrite (three_liberty_suicide_full _ _ _ _ _ _ _ _ _ Hol).
  destruct (_ >? 0) eqn:G; [discriminate|].
  destruct (negb (a0 && a1)); simpl; [|discriminate].
  destruct (groupcts s color >? 1) eqn:G1; [discriminate|].
  destruct (existsb _ _) eqn:G2; [discriminate|].
  intros _. rewrite Z.gtb_ltb in G, G1. apply Z.ltb_ge in G, G1.
  split; [|split; [exact G1|]].
  - destruct (a0 || a1); simpl in G; lia.
  - intros g' Hg'.
    destruct (Z.leb_spec (libs b g') 2) as [E|E]; [|lia].
    exfalso. assert (Hex : existsb (fun g' => libs b g' <=? 2)
                             (groupids s (stone_other color)) = true).
    { apply existsb_exists. exists g'. split; [exact Hg'|].
      now apply Z.leb_le. }
    congruence.
Qed.

Lemma friendly_loop_true (b : board) (color : stone) (to : coord_t)
  (gs : list group_t) : forall s s',
  examine_friendly_loop b color to gs s = Ok (1, s') ->
  exists pre g post,
    gs = pre ++ g :: post
    /\ examine_friendly_loop b color to pre s = Ok (-1, s')
    /\ libs b g = 3
    /\ three_liberty_suicide b g color to s' = Ok true.
Proof.
  induction gs as [|g gs IH]; simpl; intros s s' H; [discriminate|].
  destruct (libs b g =? 1) eqn:E1.
  { destruct (IH _ _ H) as (pre & g0 & post & -> & Hp & H3 & Ht).
    exists (g :: pre), g0, post. simpl. rewrite E1. auto. }
  destruct (libs b g >? 2) eqn:E2.
  { destruct (Z.eqb_spec (libs b g) 3) as [E3|E3]; [|discriminate].
    destruct (three_liberty_suicide b g color to s) as [[|]|] eqn:Et;
      simpl in H; inversion H; subst.
    exists [], g, gs. simpl. auto. }
  revert H. cbv zeta.
  destruct (_ && _ && _) eqn:E3; [discriminate|].
  destruct (groupcts s S_NONE >? 1) eqn:E4; [discriminate|].
  destruct ((groupcts s S_NONE >? 0) && _) eqn:E5; [discriminate|].
  intros H.
  destruct (IH _ _ H) as (pre & g0 & post & -> & Hp & H3 & Ht).
  exists (g :: pre), g0, post. simpl. rewrite E1, E2, E3, E4, E5. auto.
Qed.

(** The friendly scan answers "bad" only for a point with a single
    friendly neighbouring group, of exactly three liberties, condemned by
    the three-liberty check: the point then has at most one empty
    neighbour counted and every enemy neighbouring group has more than two
    liberties. *)
Theorem friendly_bad_is_three_liberty (b : board) (color : stone)
  (to : coord_t) (s s' : selfatari_state) :
  examine_friendly_groups b color to s = Ok (1, s') ->
  exists g,
    groupids s color = [g]
    /\ s' = s
    /\ libs b g = 3
    /\ three_liberty_suicide b g color to s = Ok true
    /\ immediate_liberty_count b to <= 1
    /\ forall g', In g' (groupids s (stone_other color)) -> libs b g' > 2.
Proof.
  unfold examine_friendly_groups. intros H.
  destruct (friendly_loop_true b color to _ _ _ H)
    as (pre & g & post & Hgs & Hp & H3 & Ht).
  destruct (three_liberty_true_inv b g color to s' Ht) as (Hi & Hc & He).
  pose proof (friendly_loop_groupids _ _ _ _ _ _ _ Hp) as Hids.
  assert (Hlen : (length (groupids s color) <= 1)%nat).
  { unfold groupcts in Hc. rewrite Hids in Hc. lia. }
  rewrite Hgs in Hlen. rewrite length_app in Hlen. simpl in Hlen.
  destruct pre as [|x pre]; [|simpl in Hlen; lia].
  destruct post as [|y post]; [|simpl in Hlen; lia].
  simpl in Hp. inversion Hp; subst s'.
  exists g. simpl in Hgs. auto 10.
Qed.

Lemma friendly_bad_is_three_liberty_witness :
  exists g,
    groupids (collect_groups Positions.eyespace_board 30) S_BLACK = [g]
    /\ libs Positions.eyespace_board g = 3.
Proof.
  destruct (friendly_bad_is_three_liberty Positions.eyespace_board S_BLACK
              30 (collect_groups Positions.eyespace_board 30)
              (collect_groups Positions.eyespace_board 30))
    as (g & H1 & _ & H3 & _).
  - vm_compute; reflexivity.
  - exists g. split; assumption.
Defined.

(** ** The other two liberties *)

(** The extracting loop of the three-liberty check writes, in array
    order, the entries among the first three liberties of the group that
    differ from the candidate point, each with its adjacency to the point.
    With no entry equal to the point the third is written past the two
    slots.  With two entries or more equal to the point a slot stays unset:
    the check then returns false at its guard when the one written liberty
    is next to the point and the point has more than one empty neighbour,
    and reads the unset slot otherwise. *)
Theorem other_libs_extraction (b : board) (g : group_t) (color : stone)
  (to : coord_t) (s : selfatari_state) :
  let hits := filter (fun i => lib b g i =? to) [0; 1; 2]%nat in
  let rest := filter (fun i => negb (lib b g i =? to)) [0; 1; 2]%nat in
  let entry := fun i => (lib b g i, coord_is_adjecent b (lib b g i) to) in
  (hits = [] -> other_libs b g to = Fault Undefined)
  /\ (hits <> [] -> other_libs b g to = Ok (map entry rest))
  /\ ((2 <= length hits)%nat ->
      three_liberty_suicide b g color to s
      = if existsb (fun i => coord_is_adjecent b (lib b g i) to) rest
           && (immediate_liberty_count b to >? 1)
        then Ok false
        else Fault Undefined).
Proof.
  assert (Hgt : forall z, (z - 1 >? 0) = (z >? 1)).
  { intros z. rewrite !Z.gtb_ltb.
    destruct (Z.ltb_spec 0 (z - 1)), (Z.ltb_spec 1 z); auto; lia. }
  unfold three_liberty_suicide, other_libs. simpl.
  destruct (lib b g 0 =? to), (lib b g 1 =? to), (lib b g 2 =? to);
    simpl; conjuncts; intros H;
    try reflexivity; try discriminate; try congruence;
    try (exfalso; simpl in H; lia);
    match goal with
    | |- context [coord_is_adjecent b ?l to] =>
        destruct (coord_is_adjecent b l to); simpl;
          [rewrite Hgt; now destruct (_ >? 1)|reflexivity]
    end.
Qed.

Lemma other_libs_extraction_witness :
  other_libs Positions.ring_board 38 31 = Fault Undefined
  /\ other_libs Positions.ring_board 38 50 = Ok [(30, false); (48, false)]
  /\ three_liberty_suicide Positions.eyespace_board_repeated 20 S_BLACK 31
       (collect_groups Positions.eyespace_board_repeated 31) = Ok false.
Proof.
  conjuncts.
  - apply (proj1 (other_libs_extraction Positions.ring_board 38 S_BLACK 31
                    state0)).
    vm_compute; reflexivity.
  - apply (proj1 (proj2 (other_libs_extraction Positions.ring_board 38
                           S_BLACK 50 state0))).
    vm_compute; discriminate.
  - apply (proj2 (proj2 (other_libs_extraction
                           Positions.eyespace_board_repeated 20 S_BLACK 31
                           (collect_groups Positions.eyespace_board_repeated
                              31)))).
    simpl. lia.
Defined.

Lemma eye_in_second_slot_witness :
  three_liberty_suicide Positions.ring_board 38 S_BLACK 50
    (collect_groups Positions.ring_board 50) = Ok false
  \/ three_liberty_suicide Positions.ring_board 38 S_BLACK 50
       (collect_groups Positions.ring_board 50) = Fault AssertFail.
Proof.
  apply (eye_in_second_slot Positions.ring_board 38 S_BLACK 50
           (collect_groups Positions.ring_board 50) 30 48 false false);
    vm_compute; reflexivity.
Defined.


(** ** Connecting to a strong group *)

Lemma friendly_loop_healthy (b : board) (color : stone) (to : coord_t)
  (g : group_t) (gs : list group_t) : forall s,
  In g gs -> libs b g > 3 ->
  (forall g' s', In g' gs -> libs b g' = 3 -> groupids s' = groupids s ->
                 three_liberty_suicide b g' color to s' = Ok false) ->
  exists s', examine_friendly_loop b color to gs s = Ok (0, s').
Proof.
  induction gs as [|h gs IH]; simpl; intros s Hin Hg Htls; [tauto|].
  destruct (Z.eqb_spec (libs b h) 1) as [E1|E1].
  { destruct Hin as [->|Hin]; [lia|].
    apply IH; [exact Hin|exact Hg|].
    intros g' s' Hg' H3 Hs'. apply Htls; [now right|exact H3|].
    rewrite Hs'. now destruct (needs_more_lib s =? 0). }
  rewrite Z.gtb_ltb.
  destruct (Z.ltb_spec 2 (libs b h)) as [E2|E2].
  { destruct (Z.eqb_spec (libs b h) 3) as [E3|E3]; [|now exists s].
    rewrite (Htls h s (or_introl eq_refl) E3 eq_refl). simpl.
    now exists s. }
  destruct Hin as [->|Hin]; [lia|].
  repeat match goal with
  | |- exists s', (if ?c then _ else _) = _ =>
      destruct c; [now exists s|]
  end.
  apply IH; [exact Hin|exact Hg|].
  intros g' s' Hg' H3 Hs'. apply Htls; [now right|exact H3|exact Hs'].
Qed.

(** A move next to a friendly group with more than three liberties is
    never a bad self-atari, wherever that group stands in the bucket and
    whatever the other neighbours are. *)
Theorem healthy_friend_not_bad (b : board) (color : stone) (to : coord_t)
  (g : group_t) :
  is_stone color = true ->
  around_ok b to = true ->
  groupcts (collect_groups b to) S_NONE <= 1 ->
  In g (groupids (collect_groups b to) color) ->
  libs b g > 3 ->
  is_bad_selfatari_slow b color to = Ok false.
Proof.
  intros Hcolor Hok Ha Hin Hg.
  destruct (friendly_loop_healthy b color to g
              (groupids (collect_groups b to) color) (collect_groups b to)
              Hin Hg) as (s' & Hs').
  - intros g' s' Hg' H3 Hids.
    apply (three_liberty_two_friends b color to Hok).
    + unfold groupcts. rewrite Hids.
      destruct (groupids (collect_groups b to) color) as [|x [|y l]];
        simpl in *; try lia.
      destruct Hin as [->|[]], Hg' as [->|[]]. lia.
    + now apply (bucket_group_ok b to Hok color).
    + exact H3.
  - apply (slow_friendly_verdict b color to 0 s'); [exact Ha|exact Hs'|lia].
Qed.

Lemma healthy_friend_not_bad_witness :
  is_bad_selfatari_slow Positions.nakade_board S_BLACK 50 = Ok false.
Proof.
  apply (healthy_friend_not_bad Positions.nakade_board S_BLACK 50 38).
  - reflexivity.
  - vm_compute; reflexivity.
  - vm_compute; discriminate.
  - vm_compute. tauto.
  - vm_compute; reflexivity.
Defined.

(** ** Captures *)

Lemma some_empty_neighbor_count (b : board) (to : coord_t) :
  empty_neighbors b to <> [] ->
  groupcts (collect_groups b to) S_NONE > 0.
Proof.
  intros H.
  destruct (collect_groups_spec b to) as (_ & Hin & _).
  destruct (empty_neighbors b to) as [|c l] eqn:E; [contradiction|].
  assert (Hc : In c (empty_neighbors b to)) by (rewrite E; now left).
  apply filter_In in Hc. destruct Hc as [Hc Hcol].
  apply stone_eqb_eq in Hcol.
  assert (Hg : In (group_at b c) (groupids (collect_groups b to) S_NONE)).
  { apply Hin. exists c. auto. }
  unfold groupcts.
  destruct (groupids (collect_groups b to) S_NONE); [contradiction|].
  simpl. lia.
Qed.

Lemma enemy_loop_capture (b : board) (color : stone) (s : selfatari_state)
  (g : group_t) (gs : list group_t) : forall cc,
  In g gs -> libs b g <= 1 ->
  groupcts s S_NONE > 0 \/ group_is_onestone b g = false ->
  examine_enemy_loop b color s gs cc = Return 0.
Proof.
  induction gs as [|h gs IH]; simpl; intros cc Hin Hl Hc; [tauto|].
  rewrite !Z.gtb_ltb.
  destruct (Z.ltb_spec 1 (libs b h)) as [E|E].
  { destruct Hin as [->|Hin]; [lia|]. now apply IH. }
  destruct (Z.ltb_spec 0 (groupcts s S_NONE)) as [E0|E0]; [reflexivity|].
  simpl.
  destruct Hin as [->|Hin].
  { destruct Hc as [Hc|Hc]; [lia|]. now rewrite Hc. }
  destruct (negb (group_is_onestone b h)); [reflexivity|].
  destruct (_ && _); [reflexivity|].
  destruct (_ || _); [reflexivity|].
  now apply IH.
Qed.

(** After a friendly scan without verdict, a move that takes an enemy
    neighbouring group in atari is never a bad self-atari when that group
    has more than one stone or the point has an empty neighbour, whatever
    else stands around the point. *)
Theorem capture_with_gain_not_bad (b : board) (color : stone)
  (to : coord_t) (s1 : selfatari_state) (g : group_t) :
  groupcts (collect_groups b to) S_NONE <= 1 ->
  examine_friendly_groups b color to (collect_groups b to) = Ok (-1, s1) ->
  In g (groupids s1 (stone_other color)) ->
  libs b g <= 1 ->
  group_is_onestone b g = false \/ empty_neighbors b to <> [] ->
  examine_enemy_groups b color to s1 = 0
  /\ is_bad_selfatari_slow b color to = Ok false.
Proof.
  intros Ha Hf Hin Hl Hc.
  assert (Hids : groupids s1 = groupids (collect_groups b to)).
  { unfold examine_friendly_groups in Hf.
    eapply friendly_loop_groupids; eauto. }
  assert (He : examine_enemy_groups b color to s1 = 0).
  { unfold examine_enemy_groups.
    rewrite (enemy_loop_capture b color s1 g _ 0 Hin Hl); [reflexivity|].
    destruct Hc as [Hc|Hc]; [now right|left].
    unfold groupcts. rewrite Hids. now apply some_empty_neighbor_count. }
  split; [exact He|].
  apply (slow_enemy_verdict b color to 0 s1); auto; lia.
Qed.

Lemma capture_with_gain_not_bad_witness :
  is_bad_selfatari_slow Positions.throwin_board S_BLACK 55 = Ok false.
Proof.
  refine (proj2 (capture_with_gain_not_bad Positions.throwin_board S_BLACK
                   55 (collect_groups Positions.throwin_board 55) 56
                   _ _ _ _ _)).
  - vm_compute; discriminate.
  - vm_compute; reflexivity.
  - vm_compute. tauto.
  - vm_compute; discriminate.
  - left. vm_compute; reflexivity.
Defined.

Lemma enemy_loop_second (b : board) (color : stone) (s : selfatari_state)
  (g : group_t) (gs : list group_t) : forall cc,
  cc <> 0 -> In g gs -> libs b g <= 1 -> g <> cc ->
  examine_enemy_loop b color s gs cc = Return 0.
Proof.
  induction gs as [|h gs IH]; simpl; intros cc Hcc Hin Hl Hne; [tauto|].
  rewrite !Z.gtb_ltb.
  destruct (Z.ltb_spec 1 (libs b h)) as [E|E].
  { destruct Hin as [->|Hin]; [lia|]. now apply IH. }
  destruct (_ || negb _); [reflexivity|].
  destruct (_ && negb _); [reflexivity|].
  destruct (Z.eqb_spec cc 0) as [E0|E0]; [contradiction|].
  destruct (Z.eqb_spec cc h) as [Eh|Eh]; simpl;
    [|now rewrite orb_true_r].
  destruct (negb (needs_more_lib s =? 0)); simpl; [reflexivity|].
  subst h. destruct Hin as [->|Hin]; [contradiction|].
  now apply IH.
Qed.

Lemma enemy_loop_two (b : board) (color : stone) (s : selfatari_state)
  (g1 g2 : group_t) (gs : list group_t) :
  (forall x, In x gs -> x <> 0) ->
  In g1 gs -> In g2 gs -> g1 <> g2 ->
  libs b g1 <= 1 -> libs b g2 <= 1 ->
  examine_enemy_loop b color s gs 0 = Return 0.
Proof.
  induction gs as [|h gs IH]; simpl; intros Hnz H1 H2 Hne Hl1 Hl2; [tauto|].
  rewrite !Z.gtb_ltb.
  destruct (Z.ltb_spec 1 (libs b h)) as [E|E].
  { destruct H1 as [->|H1]; [lia|]. destruct H2 as [->|H2]; [lia|].
    apply IH; auto. }
  destruct (_ || negb _); [reflexivity|].
  destruct (_ && negb _); [reflexivity|].
  simpl. rewrite orb_false_r.
  destruct (negb (needs_more_lib s =? 0)); [reflexivity|].
  assert (Hh : h <> 0) by (apply Hnz; now left).
  destruct (Z.eq_dec g1 h) as [E1|E1].
  - subst h. destruct H2 as [H2|H2]; [congruence|].
    apply (enemy_loop_second b color s g2); auto.
  - destruct H1 as [H1|H1]; [congruence|].
    apply (enemy_loop_second b color s g1); auto.
Qed.

(** After a friendly scan without verdict, a move that takes two
    different enemy neighbouring groups in atari is never a bad
    self-atari. *)
Theorem capture_two_groups_not_bad (b : board) (color : stone)
  (to : coord_t) (s1 : selfatari_state) (g1 g2 : group_t) :
  is_stone color = true ->
  around_ok b to = true ->
  groupcts (collect_groups b to) S_NONE <= 1 ->
  examine_friendly_groups b color to (collect_groups b to) = Ok (-1, s1) ->
  In g1 (groupids s1 (stone_other color)) ->
  In g2 (groupids s1 (stone_other color)) ->
  g1 <> g2 ->
  libs b g1 <= 1 -> libs b g2 <= 1 ->
  examine_enemy_groups b color to s1 = 0
  /\ is_bad_selfatari_slow b color to = Ok false.
Proof.
  intros Hcolor Hok Ha Hf H1 H2 Hne Hl1 Hl2.
  assert (Hids : groupids s1 = groupids (collect_groups b to)).
  { unfold examine_friendly_groups in Hf.
    eapply friendly_loop_groupids; eauto. }
  assert (He : examine_enemy_groups b color to s1 = 0).
  { unfold examine_enemy_groups.
    rewrite (enemy_loop_two b color s1 g1 g2); auto.
    intros x Hx. rewrite Hids in Hx.
    apply (group_ok_inv b to x).
    apply (bucket_group_ok b to Hok (stone_other color)); [|exact Hx].
    destruct color; simpl in *; congruence. }
  split; [exact He|].
  apply (slow_enemy_verdict b color to 0 s1); auto; lia.
Qed.

Lemma capture_two_groups_not_bad_witness :
  is_bad_selfatari_slow Positions.double_board S_BLACK 58 = Ok false.
Proof.
  refine (proj2 (capture_two_groups_not_bad Positions.double_board S_BLACK
                   58 (collect_groups Positions.double_board 58) 57 59
                   _ _ _ _ _ _ _ _ _)).
  - reflexivity.
  - vm_compute; reflexivity.
  - vm_compute; discriminate.
  - vm_compute; reflexivity.
  - vm_compute. tauto.
  - vm_compute. tauto.
  - discriminate.
  - vm_compute; discriminate.
  - vm_compute; discriminate.
Defined.


(** ** The order of the neighbours, again *)

(** On a board with accurate liberties around the point, the friendly and
    the enemy scan do not depend on the order in which the neighbours are
    visited, with no condition on the number of groups: both orders give
    the same friendly verdict, and after a friendly scan without verdict
    the same enemy verdict. *)
Theorem friendly_enemy_order_free (b : board)
  (nb : coord_t -> list coord_t) (color : stone) (to : coord_t) :
  is_stone color = true ->
  around_ok b to = true ->
  (forall c, Permutation (neighbors b c) (nb c)) ->
  match examine_friendly_groups (with_neighbors b nb) color to
          (collect_groups (with_neighbors b nb) to),
        examine_friendly_groups b color to (collect_groups b to) with
  | Ok (d', s1'), Ok (d, s1) =>
      d' = d
      /\ (d = -1 ->
          examine_enemy_groups (with_neighbors b nb) color to s1'
          = examine_enemy_groups b color to s1)
  | Fault f', Fault f => f' = f
  | _, _ => False
  end.
Proof.
  intros Hcolor Hok Hperm.
  pose proof (friendly_order b nb color to Hcolor Hok Hperm) as H.
  unfold same_outcome in H.
  destruct (examine_friendly_groups (with_neighbors b nb) color to _)
    as [[d' s1']|f'];
    destruct (examine_friendly_groups b color to _) as [[d s1]|f] eqn:E;
    try exact H.
  destruct H as [Hd Hsim]. split; [exact Hd|]. intros Hm.
  apply (enemy_order b nb color to Hcolor Hok); [now apply Hsim; subst|].
  unfold examine_friendly_groups in E.
  eapply friendly_loop_groupids; eauto.
Qed.

Lemma friendly_enemy_order_free_witness :
  match examine_friendly_groups Positions.nakade_board_rev S_BLACK 46
          (collect_groups Positions.nakade_board_rev 46),
        examine_friendly_groups Positions.nakade_board S_BLACK 46
          (collect_groups Positions.nakade_board 46) with
  | Ok (d', s1'), Ok (d, s1) =>
      d' = d
      /\ (d = -1 ->
          examine_enemy_groups Positions.nakade_board_rev S_BLACK 46 s1'
          = examine_enemy_groups Positions.nakade_board S_BLACK 46 s1)
  | Fault f', Fault f => f' = f
  | _, _ => False
  end.
Proof.
  apply (friendly_enemy_order_free Positions.nakade_board
           (fun c => rev (neighbors Positions.nakade_board c)) S_BLACK 46).
  - reflexivity.
  - vm_compute; reflexivity.
  - intros c. apply Permutation_rev.
Defined.

(** ** The nakade scan, in general *)

Lemma nakade_friends_results (b : board) (to lib2 : coord_t)
  (gs : list group_t) :
  nakade_friends b to lib2 gs = Ok (Some 0)
  \/ nakade_friends b to lib2 gs = Ok None
  \/ nakade_friends b to lib2 gs = Fault AssertFail.
Proof.
  induction gs as [|g2 gs IH]; simpl; [now left|].
  destruct (libs b g2 <=? 2); simpl; [|tauto].
  destruct (libs b g2 =? 2).
  - destruct (_ && _); tauto.
  - destruct (lib b g2 0 =? to); simpl; tauto.
Qed.

Lemma nakade_group_results (b : board) (color : stone) (to : coord_t)
  (s : selfatari_state) (g : group_t) :
  nakade_group b color to s g = Ok (Some 0)
  \/ nakade_group b color to s g = Ok None
  \/ nakade_group b color to s g = Fault AssertFail.
Proof.
  unfold nakade_group.
  destruct (negb (libs b g =? 2)); [tauto|].
  destruct (negb (forallb _ _)); [tauto|].
  destruct (groupcts s color <? 1); [tauto|].
  destruct (_ && _).
  - destruct (libs b _ <=? 2); simpl; [|tauto].
    destruct (libs b _ =? 1); tauto.
  - apply nakade_friends_results.
Qed.

(** The nakade scan never condemns a move and has no undefined behaviour:
    it answers "not bad" (0), gives no verdict (-1), or stops on one of its
    assertions. *)
Theorem nakade_scan_results (b : board) (color : stone) (to : coord_t)
  (s : selfatari_state) :
  setup_nakade_or_snapback b color to s = Ok 0
  \/ setup_nakade_or_snapback b color to s = Ok (-1)
  \/ setup_nakade_or_snapback b color to s = Fault AssertFail.
Proof.
  unfold setup_nakade_or_snapback.
  induction (groupids s (stone_other color)) as [|g gs IH]; simpl;
    [tauto|].
  destruct (nakade_group_results b color to s g) as [H|[H|H]];
    rewrite H; simpl; try tauto.
  destruct (negb (groupcts s color =? 0)); tauto.
Qed.

(** With no friendly group next to the point, the nakade scan fails no
    assertion and answers "not bad" exactly when some enemy neighbouring
    group has two liberties and all neighbours of its other liberty are
    internal; which group comes first does not matter. *)
Theorem nakade_scan_without_friends (b : board) (color : stone)
  (to : coord_t) (s : selfatari_state) :
  groupcts s color = 0 ->
  (setup_nakade_or_snapback b color to s = Ok 0
   \/ setup_nakade_or_snapback b color to s = Ok (-1))
  /\ (setup_nakade_or_snapback b color to s = Ok 0 <->
      exists g,
        In g (groupids s (stone_other color))
        /\ libs b g = 2
        /\ forall c, In c (neighbors b (board_group_other_lib b g to)) ->
                     internal_neighbor b color to g c = true).
Proof.
  intros Hc. unfold setup_nakade_or_snapback.
  rewrite (nakade_loop_no_friend b color to s _ Hc).
  destruct (existsb _ _) eqn:E.
  - split; [now left|]. split; [intros _|reflexivity].
    apply existsb_exists in E. destruct E as (g & Hg & H).
    apply andb_prop in H. destruct H as [H1 H2].
    exists g. split; [exact Hg|]. split; [now apply Z.eqb_eq|].
    now apply forallb_forall.
  - split; [now right|]. split; [discriminate|].
    intros (g & Hg & H1 & H2). exfalso.
    assert (Hex : existsb
              (fun g => (libs b g =? 2)
                        && forallb (internal_neighbor b color to g)
                             (neighbors b (board_group_other_lib b g to)))
              (groupids s (stone_other color)) = true).
    { apply existsb_exists. exists g. split; [exact Hg|].
      apply andb_true_intro. split; [now apply Z.eqb_eq|].
      now apply forallb_forall. }
    congruence.
Qed.

Lemma nakade_scan_without_friends_witness :
  setup_nakade_or_snapback Positions.throwin_board S_BLACK 37
    (collect_groups Positions.throwin_board 37) = Ok 0
  \/ setup_nakade_or_snapback Positions.throwin_board S_BLACK 37
       (collect_groups Positions.throwin_board 37) = Ok (-1).
Proof.
  refine (proj1 (nakade_scan_without_friends Positions.throwin_board
                   S_BLACK 37 (collect_groups Positions.throwin_board 37)
                   _)).
  vm_compute; reflexivity.
Defined.

(** With a friendly group next to the point, the nakade scan examines the
    first enemy group of the bucket and no other. *)
Theorem nakade_scan_first_enemy_only (b : board) (color : stone)
  (to : coord_t) (s : selfatari_state) (g : group_t)
  (rest : list group_t) :
  groupcts s color <> 0 ->
  groupids s (stone_other color) = g :: rest ->
  setup_nakade_or_snapback b color to s = nakade_loop b color to s [g].
Proof.
  intros Hc Hg. unfold setup_nakade_or_snapback. rewrite Hg. simpl.
  destruct (nakade_group b color to s g) as [[d|]|f]; simpl;
    try reflexivity.
  destruct (Z.eqb_spec (groupcts s color) 0); [contradiction|reflexivity].
Qed.

Lemma nakade_scan_first_enemy_only_witness :
  setup_nakade_or_snapback Positions.nakade_board S_BLACK 46
    (collect_groups Positions.nakade_board 46)
  = nakade_loop Positions.nakade_board S_BLACK 46
      (collect_groups Positions.nakade_board 46) [37].
Proof.
  apply (nakade_scan_first_enemy_only Positions.nakade_board S_BLACK 46
           (collect_groups Positions.nakade_board 46) 37 [47]).
  - vm_compute; discriminate.
  - vm_compute; reflexivity.
Defined.

(** ** The throw-in check, in general *)

(** The throw-in check returns -1, 0 or 1 when it returns; it condemns a
    move only when it applies and the single friendly neighbouring group
    is in atari, and it clears a move only when it applies. *)
Theorem throwin_results (b : board) (color : stone) (to : coord_t)
  (s : selfatari_state) (d : Z) :
  check_throwin b color to s = Ok d ->
  (d = -1 \/ d = 0 \/ d = 1)
  /\ (d = 1 ->
      throwin_applies b color to = true
      /\ exists g, groupids s color = [g] /\ libs b g = 1)
  /\ (d = 0 ->
      throwin_applies b color to = true /\ groupcts s color <= 1).
Proof.
  unfold check_throwin.
  destruct (throwin_applies b color to);
    [|intros H; inversion H; subst; repeat split; try tauto;
      discriminate].
  destruct (Z.leb_spec (groupcts s color) 1) as [E|E]; simpl;
    [|discriminate].
  destruct (Z.eqb_spec (groupcts s color) 0) as [E0|E0].
  { destruct (existsb _ _); intros H; inversion H; subst;
      repeat split; try tauto; try discriminate; lia. }
  destruct (Z.eqb_spec (groupcts s color) 1) as [E1|E1]; simpl;
    [|discriminate].
  destruct (libs b _ <=? 2); simpl; [|discriminate].
  assert (Hg : exists g, groupids s color = [g]).
  { unfold groupcts in E1.
    destruct (groupids s color) as [|g [|g' l]]; simpl in E1; try lia.
    now exists g. }
  destruct Hg as (g & Hg). rewrite Hg. simpl.
  destruct (Z.eqb_spec (libs b g) 1) as [El|El].
  { intros H; inversion H; subst. repeat split; try tauto; try discriminate.
    now exists g. }
  destruct (group_is_onestone b g); intros H; inversion H; subst;
    repeat split; try tauto; try discriminate; lia.
Qed.

Lemma throwin_results_witness :
  throwin_applies Positions.atari_board S_BLACK 67 = true
  /\ exists g,
       groupids (set_friend_has_no_libs
                   (collect_groups Positions.atari_board 67) true) S_BLACK
       = [g]
       /\ libs Positions.atari_board g = 1.
Proof.
  refine (proj1 (proj2 (throwin_results Positions.atari_board S_BLACK 67
            (set_friend_has_no_libs
               (collect_groups Positions.atari_board 67) true) 1 _))
            eq_refl).
  vm_compute; reflexivity.
Defined.


(** ** The cousin, in general *)

(** Once a group is recorded in needs_more_lib with its other liberty, a
    friendly scan without verdict has met no two-liberty group with another
    other liberty. *)
Lemma friendly_loop_recorded (b : board) (color : stone) (to : coord_t)
  (L : coord_t) (gs : list group_t) : forall s s',
  (forall g, In g gs -> g <> 0) ->
  needs_more_lib s <> 0 ->
  needs_more_lib_except s = L ->
  board_group_other_lib b (needs_more_lib s) to = L ->
  examine_friendly_loop b color to gs s = Ok (-1, s') ->
  forall g, In g gs -> libs b g = 2 -> board_group_other_lib b g to = L.
Proof.
  induction gs as [|g gs IH]; simpl; intros s s' Hnz Hn He Ho H g0 Hin Hl;
    [tauto|].
  destruct (Z.eqb_spec (libs b g) 1) as [E1|E1].
  { destruct Hin as [->|Hin]; [lia|].
    apply (IH _ _ (fun g' Hg' => Hnz g' (or_intror Hg'))) with (4 := H);
      auto; destruct (needs_more_lib s =? 0); simpl; auto. }
  destruct (libs b g >? 2).
  { destruct (libs b g =? 3); [|discriminate].
    destruct (three_liberty_suicide b g color to s) as [[|]|];
      discriminate. }
  revert H. cbv zeta.
  destruct (_ && _ && _) eqn:E3; [discriminate|].
  destruct (groupcts s S_NONE >? 1); [discriminate|].
  destruct ((groupcts s S_NONE >? 0) && _); [discriminate|].
  intros H.
  assert (HL : board_group_other_lib b g to = L).
  { destruct (Z.eqb_spec (needs_more_lib s) 0) as [E|_]; [contradiction|].
    destruct (Z.eqb_spec (needs_more_lib s) g) as [E|_];
      [now rewrite <- E|].
    destruct (Z.eqb_spec (needs_more_lib_except s)
                (board_group_other_lib b g to)) as [E|_];
      [congruence|discriminate]. }
  destruct Hin as [->|Hin]; [exact HL|].
  apply (IH _ _ (fun g' Hg' => Hnz g' (or_intror Hg'))) with (4 := H);
    simpl; auto.
Qed.

(** After a friendly scan without verdict all the friendly groups of two
    liberties have the same other liberty. *)
Lemma friendly_loop_one_lib2 (b : board) (color : stone) (to : coord_t)
  (gs : list group_t) : forall s s',
  (forall g, In g gs -> g <> 0) ->
  examine_friendly_loop b color to gs s = Ok (-1, s') ->
  forall g1 g2, In g1 gs -> In g2 gs -> libs b g1 = 2 -> libs b g2 = 2 ->
    board_group_other_lib b g1 to = board_group_other_lib b g2 to.
Proof.
  induction gs as [|g gs IH]; simpl; intros s s' Hnz H g1 g2 H1 H2 L1 L2;
    [tauto|].
  destruct (Z.eqb_spec (libs b g) 1) as [E1|E1].
  { destruct H1 as [->|H1]; [lia|]. destruct H2 as [->|H2]; [lia|].
    apply (IH _ _ (fun g' Hg' => Hnz g' (or_intror Hg')) H); auto. }
  destruct (libs b g >? 2).
  { destruct (libs b g =? 3); [|discriminate].
    destruct (three_liberty_suicide b g color to s) as [[|]|];
      discriminate. }
  revert H. cbv zeta.
  destruct (_ && _ && _); [discriminate|].
  destruct (groupcts s S_NONE >? 1); [discriminate|].
  destruct ((groupcts s S_NONE >? 0) && _); [discriminate|].
  intros H.
  assert (Hrec : forall g', In g' gs -> libs b g' = 2 ->
            board_group_other_lib b g' to = board_group_other_lib b g to).
  { apply (friendly_loop_recorded b color to _ gs _ _
             (fun g' Hg' => Hnz g' (or_intror Hg'))) with (4 := H);
      simpl; auto. }
  destruct H1 as [->|H1], H2 as [->|H2]; auto.
  - symmetry. auto.
  - rewrite (Hrec g1), (Hrec g2); auto.
Qed.

(** A verdict "bad" comes after a friendly scan that returned true or no
    verdict. *)
Lemma bad_friendly_scan (b : board) (color : stone) (to : coord_t) :
  is_bad_selfatari_slow b color to = Ok true ->
  exists d s1,
    examine_friendly_groups b color to (collect_groups b to) = Ok (d, s1)
    /\ (d = 1 \/ d = -1).
Proof.
  unfold is_bad_selfatari_slow. cbv zeta.
  destruct (assert _) as [[]|f]; simpl; [|discriminate].
  destruct (examine_friendly_groups b color to (collect_groups b to))
    as [[d s1]|f] eqn:Hf; simpl; [|discriminate].
  pose proof (friendly_loop_verdicts _ _ _ _ _ _ _ Hf) as Hd.
  intros H. exists d, s1. split; [reflexivity|].
  destruct Hd as [-> | [-> | ->]]; auto. simpl in H. discriminate.
Qed.

(** At a bad self-atari all the friendly neighbouring groups of two
    liberties have the same other liberty. *)
Lemma bad_point_one_lib2 (b : board) (color : stone) (to : coord_t) :
  (forall c, In c (neighbors b to) -> board_at b c = color ->
             group_at b c <> 0) ->
  is_bad_selfatari_slow b color to = Ok true ->
  forall g1 g2,
    In g1 (groupids (collect_groups b to) color) ->
    In g2 (groupids (collect_groups b to) color) ->
    libs b g1 = 2 -> libs b g2 = 2 ->
    board_group_other_lib b g1 to = board_group_other_lib b g2 to.
Proof.
  intros Hnz Hbad g1 g2 H1 H2 L1 L2.
  destruct (bad_friendly_scan b color to Hbad) as (d & s1 & Hf & Hd).
  destruct Hd as [Hd|Hd]; subst d.
  - exfalso. unfold examine_friendly_groups in Hf.
    destruct (friendly_loop_true _ _ _ _ _ _ Hf)
      as (pre & g & post & Hgs & Hpre & H3 & Ht).
    destruct (three_liberty_true_inv _ _ _ _ _ Ht) as (_ & Hc & _).
    unfold groupcts in Hc.
    rewrite (friendly_loop_groupids _ _ _ _ _ _ _ Hpre) in Hc.
    rewrite Hgs in Hc, H1.
    rewrite length_app in Hc. simpl in Hc.
    destruct pre as [|x pre]; [|simpl in Hc; lia].
    destruct post as [|y post]; [|simpl in Hc; lia].
    simpl in H1. destruct H1 as [->|[]]. lia.
  - unfold examine_friendly_groups in Hf.
    apply (friendly_loop_one_lib2 b color to _ _ _) with (2 := Hf); auto.
    intros g Hg. apply collect_groups_spec in Hg.
    destruct Hg as (c & Hc & Hcol & <-). auto.
Qed.

(** C8: at a point classified as a bad self-atari, selfAtariCousin returns
    pass when no friendly neighbouring group of the point has exactly two
    liberties; and whenever some such group exists whose other liberty is
    itself not a bad self-atari, that other liberty is returned, whatever
    the draw.  The draw lies within the groups found, and a stone carries
    a group id other than 0. *)
Theorem C8_cousin_at_bad_point (fast_random : nat -> nat) (b : board)
  (color : stone) (coord : coord_t) :
  (forall n, (0 < n)%nat -> (fast_random n < n)%nat) ->
  (forall c, In c (neighbors b coord) -> board_at b c = color ->
             group_at b c <> 0) ->
  is_bad_selfatari b color coord = Ok true ->
  ((forall c, In c (neighbors b coord) -> board_at b c = color ->
              libs b (group_at b c) <> 2) ->
   selfatari_cousin fast_random b color coord = Ok pass)
  /\ (forall c,
        In c (neighbors b coord) -> board_at b c = color ->
        libs b (group_at b c) = 2 ->
        is_bad_selfatari b color
          (board_group_other_lib b (group_at b c) coord) = Ok false ->
        selfatari_cousin fast_random b color coord
        = Ok (board_group_other_lib b (group_at b c) coord)).
Proof.
  intros Hrnd Hnz Hbad. split.
  - apply (cousin_of_the_drawn_group fast_random b color coord).
  - intros c Hc Hcol Hl Hother.
    assert (Hin : In (group_at b c) (cousin_groups b color coord)).
    { apply cousin_groups_spec. exists c. auto. }
    set (g := nth (fast_random (length (cousin_groups b color coord)))
                  (cousin_groups b color coord) 0).
    assert (Hg : In g (cousin_groups b color coord)).
    { apply nth_In, Hrnd. destruct (cousin_groups b color coord);
        [destruct Hin|simpl; lia]. }
    assert (Hne : cousin_groups b color coord <> []).
    { intros E. rewrite E in Hin. destruct Hin. }
    apply cousin_groups_spec in Hg.
    destruct Hg as (c' & Hc' & Hcol' & Hg' & Hl').
    assert (Hsame : board_group_other_lib b g coord
                    = board_group_other_lib b (group_at b c) coord).
    { apply (bad_point_one_lib2 b color coord Hnz Hbad); auto.
      - apply collect_groups_spec. exists c'. auto.
      - apply collect_groups_spec. exists c. auto. }
    rewrite <- Hsame.
    apply (proj2 (cousin_of_the_drawn_group fast_random b color coord) g
             Hne eq_refl).
    now rewrite Hsame.
Qed.

Lemma C8_witness :
  selfatari_cousin (fun _ => 0%nat) Positions.ko_board S_BLACK 10
  = Ok pass
  /\ selfatari_cousin Nat.pred Positions.corner_board S_BLACK 10 = Ok 20.
Proof.
  split.
  - refine (proj1 (C8_cousin_at_bad_point (fun _ => 0%nat)
                     Positions.ko_board S_BLACK 10 _ _ _) _).
    + intros n Hn. exact Hn.
    + intros c [<-|[<-|[<-|[<-|[]]]]]; vm_compute; discriminate.
    + vm_compute; reflexivity.
    + intros c [<-|[<-|[<-|[<-|[]]]]]; vm_compute; discriminate.
  - refine (proj2 (C8_cousin_at_bad_point Nat.pred
                     Positions.corner_board S_BLACK 10 _ _ _) 11 _ _ _ _).
    + intros n Hn. lia.
    + intros c [<-|[<-|[<-|[<-|[]]]]]; vm_compute; discriminate.
    + vm_compute; reflexivity.
    + vm_compute. tauto.
    + vm_compute; reflexivity.
    + vm_compute; reflexivity.
    + vm_compute; reflexivity.
Defined.

(** Whatever the draw, a move suggested by selfAtariCousin is the other
    liberty of a friendly neighbouring group with two liberties and has
    been classified as not bad; anything else is answered by pass. *)
Theorem cousin_suggestion_sound (fast_random : nat -> nat) (b : board)
  (color : stone) (coord c : coord_t) :
  (forall n, (0 < n)%nat -> (fast_random n < n)%nat) ->
  selfatari_cousin fast_random b color coord = Ok c ->
  c = pass
  \/ exists n,
       In n (neighbors b coord)
       /\ board_at b n = color
       /\ libs b (group_at b n) = 2
       /\ c = board_group_other_lib b (group_at b n) coord
       /\ is_bad_selfatari b color c = Ok false.
Proof.
  intros Hrnd. unfold selfatari_cousin. cbv zeta.
  destruct (Nat.eqb_spec (length (cousin_groups b color coord)) 0)
    as [E|E].
  { intros H. inversion H. now left. }
  set (g := nth (fast_random (length (cousin_groups b color coord)))
                (cousin_groups b color coord) 0).
  assert (Hg : In g (cousin_groups b color coord)).
  { apply nth_In, Hrnd. lia. }
  apply cousin_groups_spec in Hg. destruct Hg as (n & Hn & Hcol & Hgn & Hl).
  destruct (is_bad_selfatari b color (board_group_other_lib b g coord))
    as [[|]|f] eqn:Hbad; simpl; intros H; inversion H; subst c.
  - now left.
  - right. exists n. rewrite Hgn. auto 10.
Qed.

Lemma cousin_suggestion_sound_witness :
  60 = pass
  \/ exists n,
       In n (neighbors Positions.edge_board 67)
       /\ board_at Positions.edge_board n = S_BLACK
       /\ libs Positions.edge_board (group_at Positions.edge_board n) = 2
       /\ 60 = board_group_other_lib Positions.edge_board
                 (group_at Positions.edge_board n) 67
       /\ is_bad_selfatari Positions.edge_board S_BLACK 60 = Ok false.
Proof.
  apply (cousin_suggestion_sound Nat.pred Positions.edge_board S_BLACK 67
           60).
  - intros n Hn. lia.
  - vm_compute; reflexivity.
Defined.

(** ** No assertion fails on a consistent board *)

Lemma three_liberty_returns (b : board) (g : group_t) (color : stone)
  (to : coord_t) (s : selfatari_state) :
  empty_count_ok b to = true ->
  group_ok b to g = true ->
  libs b g = 3 ->
  exists v, three_liberty_suicide b g color to s = Ok v.
Proof.
  intros Hcount Hg H3.
  destruct (group_ok_inv b to g Hg) as [_ H]. destruct H as [Hin Hl]; [lia|].
  destruct (other_libs_ok b g to H3 Hin Hl) as (l0 & a0 & l1 & a1 & Hol).
  rewrite (three_liberty_suicide_full _ _ _ _ _ _ _ _ _ Hol).
  destruct (_ >? 0) eqn:G; [now eexists|].
  rewrite (guard_excludes_both_adjacent b g to H3 l0 l1 a0 a1
             Hcount Hl Hol G). simpl.
  destruct (_ >? 1); [now eexists|].
  destruct (existsb _ _); [now eexists|].
  destruct (final_test _ _ _ _ _ _ _); [now eexists|].
  destruct (final_test _ _ _ _ _ _ _); now eexists.
Qed.

Lemma friendly_loop_returns (b : board) (color : stone) (to : coord_t)
  (gs : list group_t) : forall s,
  (forall g s', In g gs -> libs b g = 3 ->
                exists v, three_liberty_suicide b g color to s' = Ok v) ->
  exists d s', examine_friendly_loop b color to gs s = Ok (d, s').
Proof.
  induction gs as [|g gs IH]; simpl; intros s Htls; [now eexists; eexists|].
  destruct (libs b g =? 1).
  { apply IH. intros; apply Htls; auto. }
  destruct (libs b g >? 2).
  { destruct (Z.eqb_spec (libs b g) 3) as [E|E]; [|now eexists; eexists].
    destruct (Htls g s (or_introl eq_refl) E) as (v & Hv). rewrite Hv.
    simpl. now eexists; eexists. }
  repeat match goal with
  | |- exists d s', (if ?c then _ else _) = _ =>
      destruct c; [now eexists; eexists|]
  end.
  apply IH. intros; apply Htls; auto.
Qed.

Lemma count_by_colour (b : board) (l : list coord_t) :
  let n col := length (filter (fun c => stone_eqb (board_at b c) col) l) in
  length l = (n S_NONE + n S_BLACK + n S_WHITE + n S_OFFBOARD)%nat.
Proof.
  induction l as [|c l IH]; simpl; [reflexivity|].
  simpl in IH. destruct (board_at b c); simpl; lia.
Qed.

Lemma bucket_le_count (b : board) (to : coord_t) (col : stone) :
  (length (groupids (collect_groups b to) col)
   <= length (filter (fun c => stone_eqb (board_at b c) col)
                     (neighbors b to)))%nat.
Proof.
  destruct (collect_groups_spec b to) as (Hnd & Hin & _).
  rewrite <- (length_map (group_at b)
                (filter (fun c => stone_eqb (board_at b c) col)
                        (neighbors b to))).
  apply NoDup_incl_length; [apply Hnd|].
  intros g Hg. apply Hin in Hg. destruct Hg as (c & Hc & Hcol & <-).
  apply in_map, filter_In. split; [exact Hc|].
  now apply stone_eqb_eq.
Qed.

Lemma neighbor_counts_ok_inv (b : board) (to : coord_t) :
  neighbor_counts_ok b to = true ->
  (length (neighbors b to) <= 4)%nat
  /\ (forall col,
        neighbor_count_at b to col
        = Z.of_nat (length (filter (fun c => stone_eqb (board_at b c) col)
                                   (neighbors b to))))
  /\ (forall c, In c (neighbors b to) -> board_at b c = S_NONE ->
                group_at b c = 0).
Proof.
  unfold neighbor_counts_ok. intros H.
  apply andb_prop in H. destruct H as [H H3].
  apply andb_prop in H. destruct H as [H1 H2].
  split; [now apply Nat.leb_le|]. split.
  - rewrite forallb_forall in H2. intros col. apply Z.eqb_eq, H2.
    destruct col; simpl; tauto.
  - rewrite forallb_forall in H3. intros c Hc Hcol.
    specialize (H3 c Hc). rewrite Hcol in H3. simpl in H3.
    now apply Z.eqb_eq.
Qed.

Section Returns.

Variable b : board.
Variable color : stone.
Variable to : coord_t.

Hypothesis Hcolor : is_stone color = true.
Hypothesis Hok : around_ok b to = true.
Hypothesis Hcounts : neighbor_counts_ok b to = true.

Lemma empty_bucket_small : groupcts (collect_groups b to) S_NONE <= 1.
Proof.
  destruct (collect_groups_spec b to) as (Hnd & Hin & _).
  destruct (neighbor_counts_ok_inv b to Hcounts) as (_ & _ & H0).
  assert (Hz : forall g, In g (groupids (collect_groups b to) S_NONE) ->
                         g = 0).
  { intros g Hg. apply Hin in Hg. destruct Hg as (c & Hc & Hcol & <-).
    now apply H0. }
  specialize (Hnd S_NONE). unfold groupcts.
  destruct (groupids (collect_groups b to) S_NONE) as [|x [|y l]];
    simpl; try lia.
  exfalso. inversion Hnd as [|? ? Hx _]. apply Hx. left.
  rewrite (Hz x), (Hz y); simpl; auto.
Qed.

Lemma throwin_one_friend :
  throwin_applies b color to = true ->
  groupcts (collect_groups b to) color <= 1.
Proof.
  intros H. unfold throwin_applies in H.
  apply andb_prop in H. destruct H as [H _].
  apply andb_prop in H. destruct H as [_ H]. apply Z.eqb_eq in H.
  destruct (neighbor_counts_ok_inv b to Hcounts) as (H4 & Hn & _).
  rewrite !Hn in H.
  pose proof (count_by_colour b (neighbors b to)) as Hsum. simpl in Hsum.
  pose proof (bucket_le_count b to color) as Hle.
  unfold groupcts.
  destruct color; simpl in *; try discriminate; lia.
Qed.

Lemma nakade_group_returns (s : selfatari_state) (g : group_t) :
  groupids s = groupids (collect_groups b to) ->
  (forall g2, In g2 (groupids s color) -> libs b g2 <= 2) ->
  exists r, nakade_group b color to s g = Ok r.
Proof.
  intros Hs Hle. unfold nakade_group.
  destruct (negb (libs b g =? 2)); [now eexists|].
  destruct (negb (forallb _ _)); [now eexists|].
  destruct (groupcts s color <? 1); [now eexists|].
  destruct (Z.eqb_spec (groupcts s color) 1) as [E|E]; simpl.
  - destruct (group_is_onestone b _).
    + assert (Hg : libs b (nth 0 (groupids s color) 0) <= 2).
      { apply Hle. unfold groupcts in E.
        destruct (groupids s color) as [|x [|y l]]; simpl in *; try lia;
          tauto. }
      apply Z.leb_le in Hg. rewrite Hg. simpl.
      destruct (libs b _ =? 1); now eexists.
    + rewrite nakade_friends_closed; [now eexists|].
      intros g2. apply (friend_facts b color to Hcolor Hok s g2 Hs Hle).
  - rewrite nakade_friends_closed; [now eexists|].
    intros g2. apply (friend_facts b color to Hcolor Hok s g2 Hs Hle).
Qed.

Lemma nakade_loop_returns (s : selfatari_state) (gs : list group_t) :
  groupids s = groupids (collect_groups b to) ->
  (forall g2, In g2 (groupids s color) -> libs b g2 <= 2) ->
  exists d, nakade_loop b color to s gs = Ok d.
Proof.
  intros Hs Hle. induction gs as [|g gs IH]; simpl; [now eexists|].
  destruct (nakade_group_returns s g Hs Hle) as ([d|] & Hr); rewrite Hr;
    simpl; [now eexists|].
  destruct (negb (groupcts s color =? 0)); [now eexists|exact IH].
Qed.

Lemma throwin_returns (s : selfatari_state) :
  groupids s = groupids (collect_groups b to) ->
  (forall g2, In g2 (groupids s color) -> libs b g2 <= 2) ->
  exists d, check_throwin b color to s = Ok d.
Proof.
  intros Hs Hle. unfold check_throwin.
  destruct (throwin_applies b color to) eqn:Ha; [|now eexists].
  assert (Hc : groupcts s color <= 1).
  { unfold groupcts. rewrite Hs. now apply throwin_one_friend. }
  apply Z.leb_le in Hc. rewrite Hc. simpl.
  destruct (Z.eqb_spec (groupcts s color) 0) as [E0|E0].
  { destruct (existsb _ _); now eexists. }
  apply Z.leb_le in Hc.
  assert (E1 : groupcts s color = 1) by (unfold groupcts in *; lia).
  rewrite E1. simpl.
  assert (Hg : libs b (nth 0 (groupids s color) 0) <= 2).
  { apply Hle. unfold groupcts in E1.
    destruct (groupids s color) as [|x [|y l]]; simpl in *; try lia;
      tauto. }
  apply Z.leb_le in Hg. rewrite Hg. simpl.
  destruct (libs b _ =? 1); [now eexists|].
  destruct (group_is_onestone b _); now eexists.
Qed.

Lemma slow_returns : exists v, is_bad_selfatari_slow b color to = Ok v.
Proof.
  unfold is_bad_selfatari_slow.
  pose proof empty_bucket_small as Ha. apply Z.leb_le in Ha.
  rewrite Ha. simpl.
  destruct (friendly_loop_returns b color to
              (groupids (collect_groups b to) color) (collect_groups b to))
    as (d & s1 & Hf).
  { intros g s' Hg H3. apply three_liberty_returns; [|
      now apply (bucket_group_ok b to Hok color)|exact H3].
    now apply count_ok. }
  unfold examine_friendly_groups. rewrite Hf. simpl.
  destruct (d >=? 0) eqn:Ed; [now eexists|].
  destruct (friendly_loop_verdicts _ _ _ _ _ _ _ Hf) as [->|[->| ->]];
    try discriminate.
  pose proof (friendly_loop_groupids _ _ _ _ _ _ _ Hf) as Hs.
  assert (Hle : forall g2, In g2 (groupids s1 color) -> libs b g2 <= 2).
  { intros g2 Hg2. rewrite Hs in Hg2.
    eapply friendly_inconclusive_libs; eauto. }
  destruct (examine_enemy_groups b color to s1 >=? 0); [now eexists|].
  destruct (nakade_loop_returns s1 (groupids s1 (stone_other color)) Hs Hle)
    as (dn & Hn).
  unfold setup_nakade_or_snapback. rewrite Hn. cbn [bind].
  destruct (dn >=? 0); [now eexists|].
  destruct (throwin_returns s1 Hs Hle) as (dt & Ht). rewrite Ht.
  cbn [bind].
  destruct (dt >=? 0); now eexists.
Qed.

End Returns.

(** On a board that keeps its liberty arrays and its neighbour counts
    accurate around the candidate point, the classifier returns a verdict:
    none of its assertions fails (the one on the empty bucket, the one of
    the three-liberty check, the four of the nakade scan and the three of
    the throw-in check) and the two slots for the other liberties are
    neither overrun nor left unset. *)
Theorem classifier_returns (b : board) (color : stone) (to : coord_t) :
  is_stone color = true ->
  around_ok b to = true ->
  neighbor_counts_ok b to = true ->
  exists v, is_bad_selfatari_slow b color to = Ok v.
Proof. intros. now apply slow_returns. Qed.

Lemma classifier_returns_witness :
  exists v, is_bad_selfatari_slow Positions.nakade_board S_BLACK 46 = Ok v.
Proof.
  apply (classifier_returns Positions.nakade_board S_BLACK 46).
  - reflexivity.
  - vm_compute; reflexivity.
  - vm_compute; reflexivity.
Defined.
